(** * eve-swagger-js: the region and station wrappers over the ESI agent

    A shallow embedding of [src/api/universe/regions.ts] (classes [Region],
    [MappedRegions], [IteratedRegions], [RegionMarket], the [makeRegions]
    functor and [getDetails]) and of [src/api/universe/stations.ts]
    ([StationImpl], [makeStations]).

    - JavaScript values are terms of [Value]; request parameters are the object
      literals of the source, written as [VObj] association lists.
    - The agent is the external collaborator [request(route, params)]: a
      function of the requests issued so far and of the current request.
    - A promise is a computation over the log of issued requests; it resolves,
      rejects, or stays pending.
    - Objects live in a heap and are passed by reference, so that caching of
      sub-wrappers and aliasing of id arrays are visible. *)

From Stdlib Require Import ZArith String List Lia.
From stdpp Require Import base list strings.

Local Open Scope Z_scope.
Local Open Scope string_scope.
Local Open Scope list_scope.

(** ** Values, routes and requests *)

(** A JavaScript value.  An object is the list of its properties in insertion
    order, each name once; ids and other integers are [VNum]. *)

#[local] Unset Elimination Schemes.
Inductive Value : Type :=
| VUndefined
| VNull
| VBool (b : bool)
| VNum (n : Z)
| VStr (s : string)
| VArr (elems : list Value)
| VObj (fields : list (string * Value)).
#[local] Set Elimination Schemes.

(** The ESI routes named by the two modules. *)
Inductive Route : Type :=
| get_universe_regions
| get_universe_regions_region_id
| get_markets_region_id_orders
| get_markets_region_id_types
| get_markets_region_id_history
| get_universe_stations_station_id
| post_universe_names
| get_search.

Inductive Error : Type :=
| AgentError (payload : Value)
| TypeError (msg : string).

(** How a promise ends: [Pending] is the promise that never settles. *)
Inductive Outcome (A : Type) : Type :=
| Resolved (a : A)
| Rejected (e : Error)
| Pending.
Arguments Resolved {A} a.
Arguments Rejected {A} e.
Arguments Pending {A}.

(** ** A state monad with rejection *)

Definition M (S A : Type) : Type := S -> Outcome A * S.

Definition ret {S A} (a : A) : M S A := fun s => (Resolved a, s).

Definition throw {S A} (e : Error) : M S A := fun s => (Rejected e, s).

Definition bind {S A B} (m : M S A) (k : A -> M S B) : M S B :=
  fun s =>
    match m s with
    | (Resolved a, s') => k a s'
    | (Rejected e, s') => (Rejected e, s')
    | (Pending, s') => (Pending, s')
    end.

Notation "x <~ m ;; k" := (bind m (fun x => k))
  (at level 100, m at next level, right associativity).

(** ** The agent and promises *)

Definition Request : Type := Route * Value.
Definition Log : Type := list Request.

(** [agent.request(route, params)]: the answer may depend on what was
    requested before. *)
Definition ESIAgent : Type := Log -> Request -> Outcome Value.

Definition Promise : Type -> Type := M Log.

Definition request (agent : ESIAgent) (route : Route) (params : Value)
  : Promise Value :=
  fun log => (agent log (route, params), log ++ [(route, params)]).

(** [p.then(cb)] for a callback that may throw. *)
Definition settle {S A} (o : Outcome A) : M S A := fun s => (o, s).

Definition then_ {S A B} (p : M S A) (cb : A -> Outcome B) : M S B :=
  x <~ p ;; settle (cb x).

(** Property access [v.name]: [undefined] when the property is absent, a
    [TypeError] on [undefined] and [null]. *)
Fixpoint lookup_field (name : string) (fields : list (string * Value))
  : Value :=
  match fields with
  | [] => VUndefined
  | (k, v) :: rest => if String.eqb k name then v else lookup_field name rest
  end.

Definition prop (name : string) (v : Value) : Outcome Value :=
  match v with
  | VObj fields => Resolved (lookup_field name fields)
  | VUndefined | VNull => Rejected (TypeError "Cannot read properties")
  | _ => Resolved VUndefined
  end.

(** ** The object heap *)

Definition loc : Type := nat.

(** The ids a mapped wrapper is built from,
    [number[] | Set<number> | r.impl.IDSetProvider]: arrays and sets are
    objects of the caller, held by reference; a provider is a thunk that
    promises the ids. *)
Inductive IDSource : Type :=
| IdsRef (l : loc)
| IdsProvider (provider : Promise Value).

Record PageResult : Type := { result : Value; maxPages : option Z }.

(** Modelled from the spec: [internal/resource-api], which declares
    [makeArrayStreamer] and [makePageBasedStreamer], is not among the sources.
    A streamer is kept as the arguments its maker was called with; [stream]
    below says what reading it gives. *)
Inductive Streamer : Type :=
| makeArrayStreamer (fetch : Promise Value)
| makePageBasedStreamer (loader : Z -> Promise PageResult) (maxPageSize : Z).

(** The objects on the heap, with the fields their classes declare.
    [SimpleResource] gives [Region] its [id_], [SimpleMappedResource] gives
    [MappedRegions] its ids, [SimpleIteratedResource] gives [IteratedRegions]
    its streamer and id getter.  [MappedConstellations] is declared in
    [./constellations], which is not among the sources; its constructor is
    taken to store its two arguments, as the one of [MappedRegions] does. *)
Inductive Obj : Type :=
| ArrayObj (elems : list Z)
| SetObj (elems : list Z)
| StationObj (agent : ESIAgent) (id_ : Z)
| RegionObj (agent : ESIAgent) (id_ : Z)
    (constellations_ market_ : option loc)
| MappedRegionsObj (agent : ESIAgent) (ids_ : IDSource)
| IteratedRegionsObj (agent : ESIAgent) (streamer : Streamer)
    (idGetter : Value -> Value)
| MappedConstellationsObj (agent : ESIAgent) (ids_ : IDSource)
| RegionMarketObj (agent : ESIAgent) (id : Z)
    (orders_ types_ : option Streamer).

Record World : Type := { heap : list Obj; log : Log }.

(** Method calls run on the world: the heap and the request log. *)
Definition Op : Type -> Type := M World.

Definition await {A} (p : Promise A) : Op A :=
  fun w => let (o, l) := p (log w) in (o, {| heap := heap w; log := l |}).

Definition new (o : Obj) : Op loc :=
  fun w => (Resolved (length (heap w)),
            {| heap := heap w ++ [o]; log := log w |}).

Definition deref (l : loc) : Op Obj :=
  fun w =>
    match heap w !! l with
    | Some o => (Resolved o, w)
    | None => (Rejected (TypeError "dangling reference"), w)
    end.

Definition assign (l : loc) (o : Obj) : Op unit :=
  fun w => (Resolved tt, {| heap := <[l := o]> (heap w); log := log w |}).

Definition not_a {A} (class : string) : Op A :=
  throw (TypeError ("not a " ++ class)).

(** ** Stations: [src/api/universe/stations.ts] *)

Definition StationImpl_info (this : loc) : Op Value :=
  o <~ deref this ;;
  match o with
  | StationObj agent id_ =>
      await (request agent get_universe_stations_station_id
               (VObj [("path", VObj [("station_id", VNum id_)])]))
  | _ => not_a "StationImpl"
  end.

Definition StationImpl_id (this : loc) : Op Value :=
  o <~ deref this ;;
  match o with
  | StationObj agent id_ => ret (VNum id_)
  | _ => not_a "StationImpl"
  end.

(** ** The resource helpers of [internal/resource-api] *)

Definition array_elems (v : Value) : Outcome (list Value) :=
  match v with
  | VArr elems => Resolved elems
  | _ => Rejected (TypeError "not iterable")
  end.

Fixpoint numbers (vs : list Value) : Outcome (list Z) :=
  match vs with
  | [] => Resolved []
  | VNum n :: rest =>
      match numbers rest with
      | Resolved ns => Resolved (n :: ns)
      | o => o
      end
  | _ :: _ => Rejected (TypeError "not a number")
  end.

Definition number_array (v : Value) : Outcome (list Z) :=
  match array_elems v with
  | Resolved elems => numbers elems
  | Rejected e => Rejected e
  | Pending => Pending
  end.

(** [new Set(xs)] on top of the members [seen] so far: a member is kept at
    its first insertion. *)
Fixpoint Set_add_all (seen xs : list Z) : list Z :=
  match xs with
  | [] => seen
  | x :: rest =>
      if existsb (Z.eqb x) seen then Set_add_all seen rest
      else Set_add_all (seen ++ [x]) rest
  end.

Definition distinct (xs : list Z) : list Z := Set_add_all [] xs.

(** Modelled from the spec: [internal/resource-api] is not among the sources.
    [SimpleMappedResource.arrayIDs] yields the ids the mapped wrapper works
    on.  From the [Regions] interface: "If an array is provided, duplicates
    are removed (although the input array is not modified)"; a set is taken as
    it is; a provider is called and its ids are taken as a set. *)
Definition arrayIDs (ids_ : IDSource) : Op (list Z) :=
  match ids_ with
  | IdsRef l =>
      o <~ deref l ;;
      match o with
      | ArrayObj elems => ret (distinct elems)
      | SetObj elems => ret elems
      | _ => not_a "number[] | Set<number>"
      end
  | IdsProvider provider => then_ (await (then_ provider number_array))
                              (fun ids => Resolved (distinct ids))
  end.

(** [Promise.all]: every promise is started, in order; the result rejects
    with the first rejection, and stays pending when one stays pending. *)
Fixpoint Promise_all {A} (ps : list (Promise A)) : Promise (list A) :=
  match ps with
  | [] => ret []
  | p :: rest =>
      fun log =>
        let (o, log1) := p log in
        let (os, log2) := Promise_all rest log1 in
        (match o, os with
         | Rejected e, _ => Rejected e
         | _, Rejected e => Rejected e
         | Pending, _ => Pending
         | _, Pending => Pending
         | Resolved a, Resolved az => Resolved (a :: az)
         end, log2)
  end.

(** Modelled from the spec: [SimpleMappedResource.getResource] (missing with
    [internal/resource-api]) returns the resource "mapped by region id": a
    fan-out fetch over the ids of [arrayIDs], paired with the ids. *)
Definition getResource (ids_ : IDSource) (fetch : Z -> Promise Value)
  : Op (list (Z * Value)) :=
  ids <~ arrayIDs ids_ ;;
  values <~ await (Promise_all (map fetch ids)) ;;
  ret (combine ids values).

(** Modelled from the spec: the iterator of a page based streamer (missing
    with [internal/resource-api]), run to its end.  Pages are fetched one after
    the other from page 1; every page is appended to the result; the iteration
    ends with an empty page, with a page shorter than [maxPageSize], or with
    the last page when the loader reports [maxPages].  [fuel] bounds the number
    of pages; with none left the promise has not settled. *)
Fixpoint stream_pages (fuel : nat) (loader : Z -> Promise PageResult)
  (maxPageSize : Z) (page : Z) : Promise (list Value) :=
  match fuel with
  | O => settle Pending
  | S fuel' =>
      pr <~ loader page ;;
      items <~ settle (array_elems (result pr)) ;;
      if match items with [] => true | _ :: _ => false end
         || (Z.of_nat (length items) <? maxPageSize)%Z
         || match maxPages pr with
            | Some last => (last <=? page)%Z
            | None => false
            end
      then ret items
      else rest <~ stream_pages fuel' loader maxPageSize (page + 1) ;;
           ret (items ++ rest)
  end.

(** Modelled from the spec: a streamer called and its iterator run to its
    end; an array streamer yields the elements of the one array it fetches. *)
Definition stream (fuel : nat) (s : Streamer) : Promise (list Value) :=
  match s with
  | makeArrayStreamer fetch => then_ fetch array_elems
  | makePageBasedStreamer loader maxPageSize =>
      stream_pages fuel loader maxPageSize 1
  end.

(** ** Regions: [src/api/universe/regions.ts] *)

Definition getDetails (agent : ESIAgent) (id : Z) : Promise Value :=
  request agent get_universe_regions_region_id
    (VObj [("path", VObj [("region_id", VNum id)])]).

Definition Region_details (this : loc) : Op Value :=
  o <~ deref this ;;
  match o with
  | RegionObj agent id_ _ _ => await (getDetails agent id_)
  | _ => not_a "Region"
  end.

Definition Region_names (this : loc) : Op Value :=
  then_ (Region_details this) (fun result => prop "name" result).

(** The getter [constellations].  The provider closes over [this] and calls
    [this.details()]; the fields it reads, [agent] and [id_], are never
    assigned after construction. *)
Definition Region_constellations (this : loc) : Op loc :=
  o <~ deref this ;;
  match o with
  | RegionObj agent id_ None market_ =>
      c <~ new (MappedConstellationsObj agent
                  (IdsProvider (then_ (getDetails agent id_)
                                  (fun r => prop "constellations" r)))) ;;
      _ <~ assign this (RegionObj agent id_ (Some c) market_) ;;
      ret c
  | RegionObj _ _ (Some c) _ => ret c
  | _ => not_a "Region"
  end.

(** The getter [market]. *)
Definition Region_market (this : loc) : Op loc :=
  o <~ deref this ;;
  match o with
  | RegionObj agent id_ constellations_ None =>
      m <~ new (RegionMarketObj agent id_ None None) ;;
      _ <~ assign this (RegionObj agent id_ constellations_ (Some m)) ;;
      ret m
  | RegionObj _ _ _ (Some m) => ret m
  | _ => not_a "Region"
  end.

(** *** RegionMarket *)

Definition orders_loader (agent : ESIAgent) (id : Z) (page : Z)
  : Promise PageResult :=
  then_ (request agent get_markets_region_id_orders
           (VObj [("path", VObj [("region_id", VNum id)]);
                  ("query", VObj [("page", VNum page);
                                  ("order_type", VStr "all")])]))
    (fun result => Resolved {| result := result; maxPages := None |}).

Definition types_loader (agent : ESIAgent) (id : Z) (page : Z)
  : Promise PageResult :=
  then_ (request agent get_markets_region_id_types
           (VObj [("path", VObj [("region_id", VNum id)]);
                  ("query", VObj [("page", VNum page)])]))
    (fun result => Resolved {| result := result; maxPages := None |}).

Definition RegionMarket_orders (fuel : nat) (this : loc)
  : Op (list Value) :=
  o <~ deref this ;;
  match o with
  | RegionMarketObj agent id orders_ types_ =>
      s <~ match orders_ with
           | None =>
               let s := makePageBasedStreamer (orders_loader agent id) 10000 in
               _ <~ assign this (RegionMarketObj agent id (Some s) types_) ;;
               ret s
           | Some s => ret s
           end ;;
      await (stream fuel s)
  | _ => not_a "RegionMarket"
  end.

Definition market_orders_for (order_type : string) (this : loc) (type : Z)
  : Op Value :=
  o <~ deref this ;;
  match o with
  | RegionMarketObj agent id _ _ =>
      await (request agent get_markets_region_id_orders
               (VObj [("path", VObj [("region_id", VNum id)]);
                      ("query", VObj [("type_id", VNum type);
                                      ("order_type", VStr order_type)])]))
  | _ => not_a "RegionMarket"
  end.

Definition RegionMarket_buyOrdersFor := market_orders_for "buy".
Definition RegionMarket_sellOrdersFor := market_orders_for "sell".
Definition RegionMarket_ordersFor := market_orders_for "all".

Definition RegionMarket_types (fuel : nat) (this : loc)
  : Op (list Value) :=
  o <~ deref this ;;
  match o with
  | RegionMarketObj agent id orders_ types_ =>
      s <~ match types_ with
           | None =>
               let s := makePageBasedStreamer (types_loader agent id) 1000 in
               _ <~ assign this (RegionMarketObj agent id orders_ (Some s)) ;;
               ret s
           | Some s => ret s
           end ;;
      await (stream fuel s)
  | _ => not_a "RegionMarket"
  end.

Definition RegionMarket_history (this : loc) (type : Z) : Op Value :=
  o <~ deref this ;;
  match o with
  | RegionMarketObj agent id _ _ =>
      await (request agent get_markets_region_id_history
               (VObj [("path", VObj [("region_id", VNum id)]);
                      ("query", VObj [("type_id", VNum type)])]))
  | _ => not_a "RegionMarket"
  end.

(** *** MappedRegions: the methods that need no name lookup *)

Definition MappedRegions_details (this : loc) : Op (list (Z * Value)) :=
  o <~ deref this ;;
  match o with
  | MappedRegionsObj agent ids_ =>
      getResource ids_ (fun id => getDetails agent id)
  | _ => not_a "MappedRegions"
  end.

(** Modelled from the spec: [SimpleIteratedResource.ids] (missing with
    [internal/resource-api]), the iterator over the ids of every element of
    the streamer, run to its end. *)
Definition ids (fuel : nat) (streamer : Streamer) (idGetter : Value -> Value)
  : Promise (list Value) :=
  then_ (stream fuel streamer) (fun xs => Resolved (map idGetter xs)).

(** ** The modules the wrappers import *)

(** Modelled from the spec: the generated [esi] module is not among the
    sources; these are the members of its two category enumerations that the
    wrappers name. *)
Module SearchCategory.
Inductive t : Type := REGION | STATION.
End SearchCategory.

Module NameCategory.
Inductive t : Type := CONSTELLATION | REGION | STATION.
End NameCategory.

(** A search function [(query, strict) => Promise<number[]>]. *)
Definition Search : Type := string -> bool -> Promise Value.

(** [Map<number, string>], in insertion order. *)
Definition NameMap : Type := list (Z * string).

(** The functor object of [makeStations]: the call signature and its two
    properties. *)
Record Stations : Type := {
  Stations_call : Z -> Op loc;
  Stations_search : Search;
  Stations_names : list Z -> Promise NameMap
}.

(** The argument of the [Regions] functor:
    [number | number[] | Set<number> | string | undefined]. *)
Inductive RegionsArg : Type :=
| ArgUndefined
| ArgNumber (n : Z)
| ArgString (s : string)
| ArgObject (l : loc).

Section Wrappers.

(** [internal/search] and [internal/names] are not among the sources: the
    wrappers are taken over any implementation of the three functions they
    import from there. *)
Variable makeDefaultSearch : ESIAgent -> SearchCategory.t -> Search.
Variable getNames : ESIAgent -> NameCategory.t -> list Z -> Promise NameMap.
Variable getIteratedNames :
  ESIAgent -> NameCategory.t -> Promise (list Value) -> Promise NameMap.

Definition makeStations (agent : ESIAgent) : Stations :=
  {| Stations_call := fun id => new (StationObj agent id);
     Stations_search := makeDefaultSearch agent SearchCategory.STATION;
     Stations_names := fun ids => getNames agent NameCategory.STATION ids |}.

Definition MappedRegions_names (this : loc) : Op NameMap :=
  o <~ deref this ;;
  match o with
  | MappedRegionsObj agent ids_ =>
      ids <~ arrayIDs ids_ ;;
      await (getNames agent NameCategory.CONSTELLATION ids)
  | _ => not_a "MappedRegions"
  end.

Definition IteratedRegions_names (fuel : nat) (this : loc) : Op NameMap :=
  o <~ deref this ;;
  match o with
  | IteratedRegionsObj agent streamer idGetter =>
      await (getIteratedNames agent NameCategory.REGION
               (ids fuel streamer idGetter))
  | _ => not_a "IteratedRegions"
  end.

Definition makeRegions (agent : ESIAgent)
  : RegionsArg -> option bool -> Op loc :=
  let regionSearch := makeDefaultSearch agent SearchCategory.REGION in
  fun ids strict_arg =>
    let strict := default false strict_arg in
    match ids with
    | ArgUndefined =>
        new (IteratedRegionsObj agent
               (makeArrayStreamer
                  (request agent get_universe_regions VUndefined))
               (fun id => id))
    | ArgNumber id => new (RegionObj agent id None None)
    | ArgString query =>
        new (MappedRegionsObj agent (IdsProvider (regionSearch query strict)))
    | ArgObject ids => new (MappedRegionsObj agent (IdsRef ids))
    end.

End Wrappers.

(** ** The methods of the single-resource wrappers, as one family *)

Inductive Method : Type :=
| StationInfo
| StationId
| RegionDetails
| RegionNames
| MarketOrders
| MarketBuyOrdersFor (type : Z)
| MarketSellOrdersFor (type : Z)
| MarketOrdersFor (type : Z)
| MarketTypes
| MarketHistory (type : Z).

Definition as_array (xs : list Value) : Outcome Value := Resolved (VArr xs).

(** [invoke fuel m this]: call the method on [this] and wait for what it
    returns; a stream is read to its end and collected in an array. *)
Definition invoke (fuel : nat) (m : Method) (this : loc) : Op Value :=
  match m with
  | StationInfo => StationImpl_info this
  | StationId => StationImpl_id this
  | RegionDetails => Region_details this
  | RegionNames => Region_names this
  | MarketOrders => then_ (RegionMarket_orders fuel this) as_array
  | MarketBuyOrdersFor type => RegionMarket_buyOrdersFor this type
  | MarketSellOrdersFor type => RegionMarket_sellOrdersFor this type
  | MarketOrdersFor type => RegionMarket_ordersFor this type
  | MarketTypes => then_ (RegionMarket_types fuel this) as_array
  | MarketHistory type => RegionMarket_history this type
  end.

(** The methods whose body is one [agent.request], possibly followed by a
    [then]. *)
Definition single_request (m : Method) : bool :=
  match m with
  | StationId | MarketOrders | MarketTypes => false
  | _ => true
  end.

(** The methods that ask the agent at all. *)
Definition asks_agent (m : Method) : bool :=
  match m with
  | StationId => false
  | _ => true
  end.

(** The class invariant of [RegionMarket]: a cached streamer is the one the
    method built. *)
Definition cached_or_unset (cache : option Streamer) (s : Streamer) : Prop :=
  cache = None \/ cache = Some s.

(** The receiver is an instance of the class that declares the method, and
    [agent] is the agent it was constructed with. *)
Definition receiver (m : Method) (agent : ESIAgent) (o : Obj) : Prop :=
  match m, o with
  | (StationInfo | StationId), StationObj a _ => a = agent
  | (RegionDetails | RegionNames), RegionObj a _ _ _ => a = agent
  | (MarketOrders | MarketBuyOrdersFor _ | MarketSellOrdersFor _
     | MarketOrdersFor _ | MarketTypes | MarketHistory _),
    RegionMarketObj a id orders_ types_ =>
      a = agent
      /\ cached_or_unset orders_
           (makePageBasedStreamer (orders_loader a id) 10000)
      /\ cached_or_unset types_
           (makePageBasedStreamer (types_loader a id) 1000)
  | _, _ => False
  end.

(** ** Vocabulary of the statements *)

(** The requests the wrappers build, by route. *)
Definition station_request (id : Z) : Request :=
  (get_universe_stations_station_id,
   VObj [("path", VObj [("station_id", VNum id)])]).

Definition region_request (id : Z) : Request :=
  (get_universe_regions_region_id,
   VObj [("path", VObj [("region_id", VNum id)])]).

Definition orders_request (id page : Z) : Request :=
  (get_markets_region_id_orders,
   VObj [("path", VObj [("region_id", VNum id)]);
         ("query", VObj [("page", VNum page); ("order_type", VStr "all")])]).

Definition types_request (id page : Z) : Request :=
  (get_markets_region_id_types,
   VObj [("path", VObj [("region_id", VNum id)]);
         ("query", VObj [("page", VNum page)])]).

(** A page loader that issues one request per page and reports no
    [maxPages], as the two loaders of [RegionMarket] do. *)
Definition request_loader (agent : ESIAgent) (rq : Z -> Request) (page : Z)
  : Promise PageResult :=
  then_ (request agent (fst (rq page)) (snd (rq page)))
    (fun result => Resolved {| result := result; maxPages := None |}).

(** The requests for [n] pages in a row, from page [first] on. *)
Fixpoint page_requests (rq : Z -> Request) (first : Z) (n : nat)
  : list Request :=
  match n with
  | O => []
  | S n' => rq first :: page_requests rq (first + 1) n'
  end.

(** With [l] requested so far, the agent answers the requests for the pages
    [first], [first + 1], ... with the arrays [pages], one after the other. *)
Fixpoint serves (agent : ESIAgent) (rq : Z -> Request) (first : Z) (l : Log)
  (pages : list (list Value)) : Prop :=
  match pages with
  | [] => True
  | items :: rest =>
      agent l (rq first) = Resolved (VArr items)
      /\ serves agent rq (first + 1) (l ++ [rq first]) rest
  end.

(** Every page but the last is full; the last one is empty or short. *)
Fixpoint ends_short (maxPageSize : Z) (pages : list (list Value)) : bool :=
  match pages with
  | [] => false
  | [items] => (Z.of_nat (length items) <? maxPageSize)%Z
               || match items with [] => true | _ => false end
  | items :: rest =>
      (maxPageSize <=? Z.of_nat (length items))%Z
      && match items with [] => false | _ => true end
      && ends_short maxPageSize rest
  end.


(** The provider a [Region] hands to its [MappedConstellations]. *)
Definition constellations_provider (agent : ESIAgent) (id : Z) : IDSource :=
  IdsProvider (then_ (getDetails agent id) (fun r => prop "constellations" r)).

(** Successive reads of the two getters of one [Region]. *)
Inductive Accessor : Type := Constellations | Market.

Definition access (a : Accessor) : loc -> Op loc :=
  match a with
  | Constellations => Region_constellations
  | Market => Region_market
  end.

Fixpoint accesses (trace : list Accessor) (this : loc) (w : World)
  : list (Accessor * Outcome loc) * World :=
  match trace with
  | [] => ([], w)
  | a :: rest =>
      let (o, w1) := access a this w in
      let (os, w2) := accesses rest this w1 in
      ((a, o) :: os, w2)
  end.

(** The requests of the typed order listings and of the price history. *)
Definition typed_orders_request (order_type : string) (id type : Z)
  : Request :=
  (get_markets_region_id_orders,
   VObj [("path", VObj [("region_id", VNum id)]);
         ("query", VObj [("type_id", VNum type);
                         ("order_type", VStr order_type)])]).

Definition history_request (id type : Z) : Request :=
  (get_markets_region_id_history,
   VObj [("path", VObj [("region_id", VNum id)]);
         ("query", VObj [("type_id", VNum type)])]).

(** Calls on one [Region], in any order: the two methods and the two
    getters.  The run keeps what the getters returned. *)
Inductive RegionCall : Type :=
| CallDetails
| CallNames
| Read (a : Accessor).

Definition asks_details (c : RegionCall) : bool :=
  match c with
  | CallDetails | CallNames => true
  | Read _ => false
  end.

Fixpoint region_calls (trace : list RegionCall) (this : loc) (w : World)
  : list (Accessor * Outcome loc) * World :=
  match trace with
  | [] => ([], w)
  | CallDetails :: rest => region_calls rest this (snd (Region_details this w))
  | CallNames :: rest => region_calls rest this (snd (Region_names this w))
  | Read a :: rest =>
      let (o, w1) := access a this w in
      let (os, w2) := region_calls rest this w1 in
      ((a, o) :: os, w2)
  end.


(** ** Test doubles *)

Module Mock.

Definition the_forge : Value :=
  VObj [("region_id", VNum 10000002);
        ("name", VStr "The Forge");
        ("constellations", VArr [VNum 20000017; VNum 20000018])].

Definition jita : Value :=
  VObj [("station_id", VNum 60003760); ("name", VStr "Jita IV - Moon 4")].

Definition order (n : Z) : Value :=
  VObj [("order_id", VNum n); ("type_id", VNum 34)].

(** The page parameter of a request, 0 when there is none. *)
Definition page_of (params : Value) : Z :=
  match params with
  | VObj fields =>
      match lookup_field "query" fields with
      | VObj query =>
          match lookup_field "page" query with
          | VNum p => p
          | _ => 0
          end
      | _ => 0
      end
  | _ => 0
  end.

(** An agent with canned answers; the market has two orders on page 1 and
    nothing after. *)
Definition agent : ESIAgent :=
  fun _ rq =>
    match rq with
    | (get_universe_regions, _) =>
        Resolved (VArr [VNum 10000001; VNum 10000002])
    | (get_universe_regions_region_id, _) => Resolved the_forge
    | (get_universe_stations_station_id, _) => Resolved jita
    | (get_markets_region_id_orders, params) =>
        if (page_of params =? 1)%Z then Resolved (VArr [order 1; order 2])
        else Resolved (VArr [])
    | _ => Resolved (VArr [])
    end.

(** A page of 10000 orders. *)
Definition full_page (page : Z) : list Value :=
  repeat (order page) (Z.to_nat 10000).

(** An agent whose market pages are full up to page [full], with one order
    on the page after. *)
Definition paged_agent (full : Z) : ESIAgent :=
  fun _ rq =>
    match rq with
    | (get_markets_region_id_orders, params) =>
        if (page_of params <=? full)%Z
        then Resolved (VArr (full_page (page_of params)))
        else Resolved (VArr [order 0])
    | _ => Resolved VNull
    end.

(** An agent whose market serves a full first page and then times out. *)
Definition flaky (e : Error) : ESIAgent :=
  fun _ rq =>
    match rq with
    | (get_markets_region_id_orders, params) =>
        if (page_of params =? 1)%Z then Resolved (VArr (full_page 1))
        else Rejected e
    | _ => Resolved VNull
    end.

(** An agent that rejects every request. *)
Definition failing (e : Error) : ESIAgent := fun _ _ => Rejected e.

Definition timeout : Error :=
  AgentError (VObj [("status", VNum 504); ("error", VStr "Timeout")]).

(** A search that finds nothing and a name lookup that answers, for every id,
    with the name of the category it was asked for. *)
Definition search (_ : ESIAgent) (_ : SearchCategory.t) : Search :=
  fun _ _ => ret (VArr []).

Definition category_name (c : NameCategory.t) : string :=
  match c with
  | NameCategory.CONSTELLATION => "constellation"
  | NameCategory.REGION => "region"
  | NameCategory.STATION => "station"
  end.

Definition getNames (_ : ESIAgent) (c : NameCategory.t) (ids : list Z)
  : Promise NameMap :=
  ret (map (fun id => (id, category_name c)) ids).

Definition getIteratedNames (_ : ESIAgent) (c : NameCategory.t)
  (ids : Promise (list Value)) : Promise NameMap :=
  then_ (then_ ids numbers)
    (fun ns => Resolved (map (fun id => (id, category_name c)) ns)).

Definition empty : World := {| heap := []; log := [] |}.

(** A page of 1000 type ids, and an agent whose list of market types is one
    such page followed by three more ids. *)
Definition full_types_page : list Value := repeat (VNum 34) (Z.to_nat 1000).

Definition types_agent : ESIAgent :=
  fun _ rq =>
    match rq with
    | (get_markets_region_id_types, params) =>
        if (page_of params =? 1)%Z then Resolved (VArr full_types_page)
        else Resolved (VArr [VNum 35; VNum 36; VNum 37])
    | _ => Resolved VNull
    end.

End Mock.

(** * Properties *)

(** ** Running the monad *)

Lemma deref_some (l : loc) (o : Obj) (w : World) :
  heap w !! l = Some o -> deref l w = (Resolved o, w).
Proof. intros H. unfold deref. now rewrite H. Qed.

Lemma bind_deref {A} (l : loc) (o : Obj) (k : Obj -> Op A) (w : World) :
  heap w !! l = Some o -> (x <~ deref l ;; k x) w = k o w.
Proof. intros H. unfold bind. now rewrite (deref_some _ _ _ H). Qed.

Lemma await_request (agent : ESIAgent) (route : Route) (params : Value)
  (w : World) :
  await (request agent route params) w
  = (agent (log w) (route, params),
     {| heap := heap w; log := log w ++ [(route, params)] |}).
Proof. reflexivity. Qed.

Lemma world_eta (w : World) : {| heap := heap w; log := log w |} = w.
Proof. now destruct w. Qed.

Lemma StationImpl_info_run (agent : ESIAgent) (id : Z) (this : loc)
  (w : World) :
  heap w !! this = Some (StationObj agent id) ->
  StationImpl_info this w
  = (agent (log w) (station_request id),
     {| heap := heap w; log := log w ++ [station_request id] |}).
Proof.
  intros H. unfold StationImpl_info. now rewrite (bind_deref _ _ _ _ H).
Qed.

Lemma Region_details_run (agent : ESIAgent) (id : Z) (c m : option loc)
  (this : loc) (w : World) :
  heap w !! this = Some (RegionObj agent id c m) ->
  Region_details this w
  = (agent (log w) (region_request id),
     {| heap := heap w; log := log w ++ [region_request id] |}).
Proof.
  intros H. unfold Region_details. now rewrite (bind_deref _ _ _ _ H).
Qed.

(** ** Stations *)

(** C6: for every station id, [makeStations(agent)(id).info()] issues exactly
    the request [get_universe_stations_station_id] with parameters
    [{ path: { station_id: id } }] and settles as the agent answers it; the
    functor's [names(ids)] is the name lookup of the agent for the ids in the
    STATION category. *)
Theorem makeStations_request_parameters
  (makeDefaultSearch : ESIAgent -> SearchCategory.t -> Search)
  (getNames : ESIAgent -> NameCategory.t -> list Z -> Promise NameMap)
  (agent : ESIAgent) (id : Z) (w : World) :
  let stations := makeStations makeDefaultSearch getNames agent in
  (this <~ Stations_call stations id ;; StationImpl_info this) w
  = (agent (log w)
       (get_universe_stations_station_id,
        VObj [("path", VObj [("station_id", VNum id)])]),
     {| heap := heap w ++ [StationObj agent id];
        log := log w ++ [(get_universe_stations_station_id,
                          VObj [("path", VObj [("station_id", VNum id)])])]
     |})
  /\ forall ids : list Z,
       Stations_names stations ids = getNames agent NameCategory.STATION ids.
Proof.
  split; [|reflexivity].
  unfold bind at 1. cbn [makeStations Stations_call new].
  rewrite (StationImpl_info_run agent id).
  - reflexivity.
  - cbn [heap]. now rewrite lookup_app_r, Nat.sub_diag by lia.
Qed.

(** C7: [Station.info] and [Region.details] settle with exactly what the
    agent answers to the one request they issue: the value is not
    transformed, and the heap is left as it was. *)
Theorem details_pass_through (agent : ESIAgent) (id : Z) (this : loc)
  (w : World) :
  (heap w !! this = Some (StationObj agent id) ->
   StationImpl_info this w
   = (agent (log w) (station_request id),
      {| heap := heap w; log := log w ++ [station_request id] |}))
  /\ (forall c m : option loc,
        heap w !! this = Some (RegionObj agent id c m) ->
        Region_details this w
        = (agent (log w) (region_request id),
           {| heap := heap w; log := log w ++ [region_request id] |})).
Proof.
  split.
  - apply StationImpl_info_run.
  - intros c m. apply Region_details_run.
Qed.

Lemma details_pass_through_witness :
  StationImpl_info 0%nat
    {| heap := [StationObj Mock.agent 60003760]; log := [] |}
  = (Resolved Mock.jita,
     {| heap := [StationObj Mock.agent 60003760];
        log := [station_request 60003760] |})
  /\ Region_details 0%nat
       {| heap := [RegionObj Mock.agent 10000002 None None]; log := [] |}
     = (Resolved Mock.the_forge,
        {| heap := [RegionObj Mock.agent 10000002 None None];
           log := [region_request 10000002] |}).
Proof.
  split.
  - apply (proj1 (details_pass_through Mock.agent 60003760 0%nat
                    {| heap := [StationObj Mock.agent 60003760];
                       log := [] |})).
    reflexivity.
  - apply (proj2 (details_pass_through Mock.agent 10000002 0%nat
                    {| heap := [RegionObj Mock.agent 10000002 None None];
                       log := [] |}) None None).
    reflexivity.
Defined.

(** ** Region *)

(** C9: [Region.names()] settles as [Region.details()] does, with the [name]
    property read from the response: when [details] resolves to a value,
    [names] resolves to its [name] (for a response object, the value stored
    under [name]); when [details] rejects or stays pending, so does [names];
    the request issued is the one of [details]. *)
Theorem Region_names_is_details_name (this : loc) (w w' : World)
  (o : Outcome Value) :
  Region_details this w = (o, w') ->
  Region_names this w
  = (match o with
     | Resolved v => prop "name" v
     | Rejected e => Rejected e
     | Pending => Pending
     end, w')
  /\ forall fields, o = Resolved (VObj fields) ->
       Region_names this w = (Resolved (lookup_field "name" fields), w').
Proof.
  intros H. unfold Region_names, then_, bind. rewrite H. split.
  - now destruct o.
  - intros fields ->. reflexivity.
Qed.

Lemma Region_names_is_details_name_witness :
  Region_names 0%nat
    {| heap := [RegionObj Mock.agent 10000002 None None]; log := [] |}
  = (Resolved (VStr "The Forge"),
     {| heap := [RegionObj Mock.agent 10000002 None None];
        log := [region_request 10000002] |}).
Proof.
  apply (proj1 (Region_names_is_details_name 0%nat
                  {| heap := [RegionObj Mock.agent 10000002 None None];
                     log := [] |} _ (Resolved Mock.the_forge) eq_refl)).
Defined.

(** ** Pagination *)

Lemma request_loader_run (agent : ESIAgent) (rq : Z -> Request) (page : Z)
  (l : Log) :
  request_loader agent rq page l
  = (match agent l (rq page) with
     | Resolved v => Resolved {| result := v; maxPages := None |}
     | Rejected e => Rejected e
     | Pending => Pending
     end, l ++ [rq page]).
Proof.
  unfold request_loader, then_, bind, request, settle.
  destruct (rq page) as [route params]; cbn [fst snd].
  now destruct (agent l (route, params)).
Qed.

(** Enough fuel: the pages are fetched in increasing order and appended. *)
Lemma stream_pages_concat (agent : ESIAgent) (rq : Z -> Request)
  (maxPageSize : Z) (pages : list (list Value)) :
  forall (fuel : nat) (first : Z) (l : Log),
    serves agent rq first l pages ->
    ends_short maxPageSize pages = true ->
    (length pages <= fuel)%nat ->
    stream_pages fuel (request_loader agent rq) maxPageSize first l
    = (Resolved (concat pages),
       l ++ page_requests rq first (length pages)).
Proof.
  induction pages as [|items rest IH]; intros fuel first l Hserve Hend Hfuel.
  - discriminate.
  - destruct fuel as [|fuel]; [cbn in Hfuel; lia|].
    destruct Hserve as [Hfirst Hrest].
    cbn [stream_pages]. unfold bind at 1.
    rewrite request_loader_run, Hfirst.
    unfold bind at 1. cbn [settle result array_elems maxPages].
    destruct rest as [|next rest].
    + cbn [ends_short] in Hend.
      replace (match items with [] => true | _ :: _ => false end
               || (Z.of_nat (length items) <? maxPageSize)%Z || false)
        with true.
      * cbn [ret concat length page_requests]. now rewrite app_nil_r.
      * destruct items; [reflexivity|].
        cbn [orb] in *. now rewrite orb_false_r in *.
    + cbn [ends_short] in Hend.
      apply andb_prop in Hend as [Hfull Hend].
      apply andb_prop in Hfull as [Hlen Hne].
      apply Z.leb_le in Hlen.
      replace (match items with [] => true | _ :: _ => false end
               || (Z.of_nat (length items) <? maxPageSize)%Z || false)
        with false.
      * unfold bind at 1.
        rewrite (IH fuel (first + 1) (l ++ [rq first]) Hrest Hend)
          by (cbn in Hfuel |- *; lia).
        cbn [ret concat length page_requests].
        now rewrite <- app_assoc.
      * destruct items; [discriminate|].
        cbn [orb]. rewrite orb_false_r. symmetry. now apply Z.ltb_ge.
Qed.

Lemma page_requests_lookup (rq : Z -> Request) (n : nat) :
  forall (first : Z) (i : nat),
    (i < n)%nat ->
    page_requests rq first n !! i = Some (rq (first + Z.of_nat i)).
Proof.
  induction n as [|n IH]; intros first i Hi; [lia|].
  destruct i as [|i]; cbn [page_requests].
  - cbn. now rewrite Z.add_0_r.
  - cbn [lookup list_lookup]. rewrite IH by lia. f_equal. f_equal. lia.
Qed.

Lemma RegionMarket_orders_run (agent : ESIAgent) (id : Z)
  (orders_ types_ : option Streamer) (this : loc) (w : World)
  (pages : list (list Value)) (fuel : nat) :
  heap w !! this = Some (RegionMarketObj agent id orders_ types_) ->
  cached_or_unset orders_
    (makePageBasedStreamer (orders_loader agent id) 10000) ->
  serves agent (orders_request id) 1 (log w) pages ->
  ends_short 10000 pages = true ->
  (length pages <= fuel)%nat ->
  RegionMarket_orders fuel this w
  = (Resolved (concat pages),
     {| heap := <[this := RegionMarketObj agent id
                            (Some (makePageBasedStreamer
                                     (orders_loader agent id) 10000))
                            types_]> (heap w);
        log := log w ++ page_requests (orders_request id) 1 (length pages) |}).
Proof.
  intros Hthis Hcache Hserve Hend Hfuel.
  unfold RegionMarket_orders. rewrite (bind_deref _ _ _ _ Hthis).
  pose proof (stream_pages_concat agent (orders_request id) 10000 pages
                fuel 1 (log w) Hserve Hend Hfuel) as Hrun.
  change (request_loader agent (orders_request id))
    with (orders_loader agent id) in Hrun.
  destruct Hcache as [-> | ->].
  - unfold bind, assign, ret, await, stream. cbn [heap log].
    now rewrite Hrun.
  - unfold bind, ret, await, stream. rewrite Hrun.
    now rewrite list_insert_id by exact Hthis.
Qed.

(** C2: [RegionMarket.orders], read to its end, resolves to the pages the
    agent serves, appended in increasing page order: when the agent answers
    the requests for pages 1, 2, ..., n with arrays of which the n-th is the
    first empty or short one (fewer than 10000 orders), the result is the
    concatenation of these n arrays as they are, and the requests issued are
    those for pages 1 to n, in this order and nothing else. *)
Theorem RegionMarket_orders_concatenates_pages (agent : ESIAgent) (id : Z)
  (orders_ types_ : option Streamer) (this : loc) (w : World)
  (pages : list (list Value)) (fuel : nat) :
  heap w !! this = Some (RegionMarketObj agent id orders_ types_) ->
  cached_or_unset orders_
    (makePageBasedStreamer (orders_loader agent id) 10000) ->
  serves agent (orders_request id) 1 (log w) pages ->
  ends_short 10000 pages = true ->
  (length pages <= fuel)%nat ->
  RegionMarket_orders fuel this w
  = (Resolved (concat pages),
     {| heap := <[this := RegionMarketObj agent id
                            (Some (makePageBasedStreamer
                                     (orders_loader agent id) 10000))
                            types_]> (heap w);
        log := log w ++ page_requests (orders_request id) 1 (length pages) |})
  /\ forall i : nat,
       (i < length pages)%nat ->
       page_requests (orders_request id) 1 (length pages) !! i
       = Some (orders_request id (1 + Z.of_nat i)).
Proof.
  intros Hthis Hcache Hserve Hend Hfuel.
  split; [|intros i Hi; now apply page_requests_lookup].
  now apply (RegionMarket_orders_run agent id orders_).
Qed.

Lemma RegionMarket_orders_concatenates_pages_witness :
  RegionMarket_orders 5 0%nat
    {| heap := [RegionMarketObj (Mock.paged_agent 2) 10000002
                  None None];
       log := [] |}
  = (Resolved (Mock.full_page 1 ++ Mock.full_page 2
               ++ [Mock.order 0]),
     {| heap := [RegionMarketObj (Mock.paged_agent 2) 10000002
                   (Some (makePageBasedStreamer
                            (orders_loader (Mock.paged_agent 2)
                               10000002) 10000))
                   None];
        log := [orders_request 10000002 1; orders_request 10000002 2;
                orders_request 10000002 3] |}).
Proof.
  pose proof (proj1 (RegionMarket_orders_concatenates_pages
    (Mock.paged_agent 2) 10000002 None None 0%nat
    {| heap := [RegionMarketObj (Mock.paged_agent 2) 10000002
                  None None];
       log := [] |}
    [Mock.full_page 1; Mock.full_page 2;
     [Mock.order 0]]
    5%nat eq_refl (or_introl eq_refl)
    (conj eq_refl (conj eq_refl (conj eq_refl I)))
    ltac:(vm_compute; reflexivity)
    ltac:(cbn; lia))) as H.
  cbn [concat length page_requests] in H.
  rewrite app_nil_r in H. exact H.
Defined.

(** ** The cached sub-wrappers of a Region *)

Lemma Region_market_first (agent : ESIAgent) (id : Z) (c : option loc)
  (this : loc) (w : World) :
  heap w !! this = Some (RegionObj agent id c None) ->
  Region_market this w
  = (Resolved (length (heap w)),
     {| heap := <[this := RegionObj agent id c (Some (length (heap w)))]>
                  (heap w ++ [RegionMarketObj agent id None None]);
        log := log w |}).
Proof.
  intros H. unfold Region_market. now rewrite (bind_deref _ _ _ _ H).
Qed.

Lemma Region_market_cached (agent : ESIAgent) (id : Z) (c : option loc)
  (m this : loc) (w : World) :
  heap w !! this = Some (RegionObj agent id c (Some m)) ->
  Region_market this w = (Resolved m, w).
Proof.
  intros H. unfold Region_market. now rewrite (bind_deref _ _ _ _ H).
Qed.

Lemma Region_constellations_first (agent : ESIAgent) (id : Z)
  (m : option loc) (this : loc) (w : World) :
  heap w !! this = Some (RegionObj agent id None m) ->
  Region_constellations this w
  = (Resolved (length (heap w)),
     {| heap := <[this := RegionObj agent id (Some (length (heap w))) m]>
                  (heap w ++ [MappedConstellationsObj agent
                                (constellations_provider agent id)]);
        log := log w |}).
Proof.
  intros H. unfold Region_constellations.
  now rewrite (bind_deref _ _ _ _ H).
Qed.

Lemma Region_constellations_cached (agent : ESIAgent) (id : Z)
  (m : option loc) (c this : loc) (w : World) :
  heap w !! this = Some (RegionObj agent id (Some c) m) ->
  Region_constellations this w = (Resolved c, w).
Proof.
  intros H. unfold Region_constellations.
  now rewrite (bind_deref _ _ _ _ H).
Qed.

Lemma lookup_after_alloc_assign (h : list Obj) (this : loc) (o o' fresh : Obj) :
  h !! this = Some o ->
  <[this := o']> (h ++ [fresh]) !! this = Some o'.
Proof.
  intros H. apply list_lookup_insert_eq.
  rewrite length_app. apply lookup_lt_Some in H. lia.
Qed.

(** One read of a getter: it returns a reference that is cached afterwards,
    keeps what was cached before, and leaves the request log alone. *)
Lemma access_step (agent : ESIAgent) (id : Z) (this : loc) (a : Accessor)
  (w : World) (c0 m0 : option loc) :
  heap w !! this = Some (RegionObj agent id c0 m0) ->
  exists (l : loc) (w1 : World) (c1 m1 : option loc),
    access a this w = (Resolved l, w1)
    /\ heap w1 !! this = Some (RegionObj agent id c1 m1)
    /\ log w1 = log w
    /\ (forall c', c0 = Some c' -> c1 = Some c')
    /\ (forall m', m0 = Some m' -> m1 = Some m')
    /\ match a with
       | Constellations => c1 = Some l
       | Market => m1 = Some l
       end.
Proof.
  intros Hthis.
  destruct a; cbn [access].
  - destruct c0 as [c|].
    + exists c, w, (Some c), m0.
      rewrite (Region_constellations_cached _ _ _ _ _ _ Hthis). auto 10.
    + rewrite (Region_constellations_first _ _ _ _ _ Hthis).
      eexists _, _, (Some (length (heap w))), m0.
      split; [reflexivity|]. cbn [heap log].
      split; [apply (lookup_after_alloc_assign _ _ _ _ _ Hthis)|].
      repeat split; auto; discriminate.
  - destruct m0 as [m|].
    + exists m, w, c0, (Some m).
      rewrite (Region_market_cached _ _ _ _ _ _ Hthis). auto 10.
    + rewrite (Region_market_first _ _ _ _ _ Hthis).
      eexists _, _, c0, (Some (length (heap w))).
      split; [reflexivity|]. cbn [heap log].
      split; [apply (lookup_after_alloc_assign _ _ _ _ _ Hthis)|].
      repeat split; auto; discriminate.
Qed.

(** Whatever is cached stays cached, every read of a getter returns the same
    reference, and no read touches the request log. *)
Lemma accesses_cached (agent : ESIAgent) (id : Z) (this : loc)
  (trace : list Accessor) :
  forall (w : World) (c0 m0 : option loc),
    heap w !! this = Some (RegionObj agent id c0 m0) ->
    exists c m : loc,
      (forall c', c0 = Some c' -> c = c')
      /\ (forall m', m0 = Some m' -> m = m')
      /\ log (snd (accesses trace this w)) = log w
      /\ forall o,
           (In (Constellations, o) (fst (accesses trace this w)) ->
            o = Resolved c)
           /\ (In (Market, o) (fst (accesses trace this w)) ->
               o = Resolved m).
Proof.
  induction trace as [|a rest IH]; intros w c0 m0 Hthis.
  - exists (default 0%nat c0), (default 0%nat m0). cbn.
    repeat split; try (intros ? ->; reflexivity); intros [].
  - destruct (access_step agent id this a w c0 m0 Hthis)
      as (l & w1 & c1 & m1 & Hrun & Hnext & Hlog1 & Hc1 & Hm1 & Hl).
    destruct (IH w1 c1 m1 Hnext) as (c & m & Hc & Hm & Hlog & Hres).
    cbn [accesses]. rewrite Hrun.
    destruct (accesses rest this w1) as [os w2].
    cbn [fst snd] in *.
    exists c, m. repeat split.
    + intros c' E. apply Hc, Hc1, E.
    + intros m' E. apply Hm, Hm1, E.
    + congruence.
    + intros [E | Hin]; [|now apply (Hres o)].
      inversion E; subst. f_equal. symmetry. now apply Hc.
    + intros [E | Hin]; [|now apply (Hres o)].
      inversion E; subst. f_equal. symmetry. now apply Hm.
Qed.

(** C10: the getters [market] and [constellations] of any [Region] are
    idempotent.  When nothing is cached yet, the first read allocates the
    sub-wrapper and stores its reference in the region.  In every sequence of
    reads of the two getters, all reads of [market] return one and the same
    reference, all reads of [constellations] return one and the same
    reference, and the request log is what it was before: no request is
    issued. *)
Theorem Region_getters_cached (agent : ESIAgent) (id : Z)
  (c0 m0 : option loc) (this : loc) (w : World) :
  heap w !! this = Some (RegionObj agent id c0 m0) ->
  (m0 = None ->
   Region_market this w
   = (Resolved (length (heap w)),
      {| heap := <[this := RegionObj agent id c0 (Some (length (heap w)))]>
                   (heap w ++ [RegionMarketObj agent id None None]);
         log := log w |}))
  /\ (c0 = None ->
      Region_constellations this w
      = (Resolved (length (heap w)),
         {| heap := <[this := RegionObj agent id (Some (length (heap w)))
                               m0]>
                      (heap w ++ [MappedConstellationsObj agent
                                    (constellations_provider agent id)]);
            log := log w |}))
  /\ forall trace : list Accessor,
       log (snd (accesses trace this w)) = log w
       /\ exists c m : loc,
            (forall c', c0 = Some c' -> c = c')
            /\ (forall m', m0 = Some m' -> m = m')
            /\ forall o,
                 (In (Constellations, o) (fst (accesses trace this w)) ->
                  o = Resolved c)
                 /\ (In (Market, o) (fst (accesses trace this w)) ->
                     o = Resolved m).
Proof.
  intros Hthis. split; [|split].
  - intros ->. apply (Region_market_first _ _ _ _ _ Hthis).
  - intros ->. apply (Region_constellations_first _ _ _ _ _ Hthis).
  - intros trace.
    destruct (accesses_cached agent id this trace w c0 m0 Hthis)
      as (c & m & Hc & Hm & Hlog & Hres).
    split; [exact Hlog|]. now exists c, m.
Qed.

Lemma Region_getters_cached_witness :
  accesses [Market; Constellations; Market; Market; Constellations] 0%nat
    {| heap := [RegionObj Mock.agent 10000002 None None]; log := [] |}
  = ([(Market, Resolved 1%nat); (Constellations, Resolved 2%nat);
      (Market, Resolved 1%nat); (Market, Resolved 1%nat);
      (Constellations, Resolved 2%nat)],
     {| heap := [RegionObj Mock.agent 10000002 (Some 2%nat) (Some 1%nat);
                 RegionMarketObj Mock.agent 10000002 None None;
                 MappedConstellationsObj Mock.agent
                   (constellations_provider Mock.agent 10000002)];
        log := [] |})
  /\ log (snd (accesses [Market; Constellations; Market] 0%nat
                 {| heap := [RegionObj Mock.agent 10000002 None None];
                    log := [] |})) = [].
Proof.
  split; [reflexivity|].
  apply (proj2 (proj2 (Region_getters_cached Mock.agent 10000002 None None
                         0%nat
                         {| heap := [RegionObj Mock.agent 10000002 None None];
                            log := [] |} eq_refl))
           [Market; Constellations; Market]).
Defined.

(** ** Mapped regions and the ids they work on *)

Lemma existsb_eqb_elem (x : Z) (seen : list Z) :
  existsb (Z.eqb x) seen = true <-> In x seen.
Proof.
  rewrite existsb_exists. split.
  - intros (y & Hy & E). apply Z.eqb_eq in E. now subst.
  - intros H. exists x. split; [exact H | apply Z.eqb_refl].
Qed.

Lemma Set_add_all_spec (xs : list Z) :
  forall seen : list Z,
    NoDup seen ->
    NoDup (Set_add_all seen xs)
    /\ forall x, In x (Set_add_all seen xs) <-> In x seen \/ In x xs.
Proof.
  induction xs as [|y rest IH]; intros seen Hseen; cbn [Set_add_all].
  - split; [exact Hseen|]. intros x. cbn. tauto.
  - destruct (existsb (Z.eqb y) seen) eqn:E.
    + apply existsb_eqb_elem in E.
      destruct (IH seen Hseen) as [Hnd Hin]. split; [exact Hnd|].
      intros x. rewrite Hin. cbn. intuition (subst; auto).
    + assert (Hy : ~ In y seen).
      { intros Hy. apply existsb_eqb_elem in Hy. congruence. }
      assert (Hseen' : NoDup (seen ++ [y])).
      { apply NoDup_app. repeat split; auto.
        - intros x Hx Hx'. apply list_elem_of_In in Hx.
          apply list_elem_of_singleton in Hx'. now subst.
        - apply NoDup_singleton. }
      destruct (IH (seen ++ [y]) Hseen') as [Hnd Hin]. split; [exact Hnd|].
      intros x. rewrite Hin, in_app_iff. cbn. tauto.
Qed.

Lemma distinct_spec (xs : list Z) :
  NoDup (distinct xs) /\ forall x, In x (distinct xs) <-> In x xs.
Proof.
  destruct (Set_add_all_spec xs [] (NoDup_nil_2 (A:=Z))) as [Hnd Hin].
  split; [exact Hnd|]. intros x. rewrite (Hin x). cbn. tauto.
Qed.

(** An array without duplicates is taken as it is, in its order. *)
Lemma Set_add_all_NoDup (xs : list Z) :
  forall seen : list Z,
    NoDup (seen ++ xs) -> Set_add_all seen xs = seen ++ xs.
Proof.
  induction xs as [|y rest IH]; intros seen Hnd; cbn [Set_add_all].
  - now rewrite app_nil_r.
  - destruct (existsb (Z.eqb y) seen) eqn:E.
    + apply existsb_eqb_elem in E. apply NoDup_app in Hnd as (_ & Hdisj & _).
      exfalso. apply (Hdisj y); [now apply list_elem_of_In | left].
    + rewrite IH; rewrite <- app_assoc; [reflexivity | exact Hnd].
Qed.

Lemma arrayIDs_array (a : loc) (xs : list Z) (w : World) :
  heap w !! a = Some (ArrayObj xs) ->
  arrayIDs (IdsRef a) w = (Resolved (distinct xs), w).
Proof.
  intros H. unfold arrayIDs. now rewrite (bind_deref _ _ _ _ H).
Qed.

Lemma Promise_all_log_cons {A} (p : Promise A) (rest : list (Promise A))
  (l : Log) :
  snd (Promise_all (p :: rest) l) = snd (Promise_all rest (snd (p l))).
Proof.
  cbn [Promise_all]. destruct (p l) as [o l1]. cbn [snd].
  now destruct (Promise_all rest l1).
Qed.

Lemma Promise_all_getDetails_log (agent : ESIAgent) (ids : list Z) :
  forall l : Log,
    snd (Promise_all (map (fun id => getDetails agent id) ids) l)
    = l ++ map region_request ids.
Proof.
  induction ids as [|id rest IH]; intros l; cbn [map].
  - cbn. now rewrite app_nil_r.
  - rewrite Promise_all_log_cons, IH. cbn [getDetails request snd].
    now rewrite <- app_assoc.
Qed.

Lemma MappedRegions_details_world (agent : ESIAgent) (a this : loc)
  (xs : list Z) (w : World) :
  heap w !! this = Some (MappedRegionsObj agent (IdsRef a)) ->
  heap w !! a = Some (ArrayObj xs) ->
  snd (MappedRegions_details this w)
  = {| heap := heap w;
       log := log w ++ map region_request (distinct xs) |}.
Proof.
  intros Hthis Ha. unfold MappedRegions_details.
  rewrite (bind_deref _ _ _ _ Hthis). unfold getResource, bind.
  rewrite (arrayIDs_array _ _ _ Ha). unfold await.
  pose proof (Promise_all_getDetails_log agent (distinct xs) (log w)) as Hlog.
  destruct (Promise_all _ (log w)) as [[values|e|] l]; cbn [snd] in Hlog;
    subst l; reflexivity.
Qed.

Lemma MappedRegions_names_run
  (getNames : ESIAgent -> NameCategory.t -> list Z -> Promise NameMap)
  (agent : ESIAgent) (a this : loc) (xs : list Z) (w : World) :
  heap w !! this = Some (MappedRegionsObj agent (IdsRef a)) ->
  heap w !! a = Some (ArrayObj xs) ->
  MappedRegions_names getNames this w
  = await (getNames agent NameCategory.CONSTELLATION (distinct xs)) w.
Proof.
  intros Hthis Ha. unfold MappedRegions_names.
  rewrite (bind_deref _ _ _ _ Hthis). unfold bind.
  now rewrite (arrayIDs_array _ _ _ Ha).
Qed.

(** C8: called with an array of ids, the functor leaves the array as it is
    and binds the new [MappedRegions] to it; the wrapper works on the distinct
    ids of the array (each id once, the same ids as the array holds): these
    are the ids it requests details for and the ids it looks up names for;
    every operation leaves the heap, and with it the array, unchanged. *)
Theorem Regions_array_distinct_unmodified
  (makeDefaultSearch : ESIAgent -> SearchCategory.t -> Search)
  (agent : ESIAgent) (a : loc) (xs : list Z) (strict : option bool)
  (w : World) :
  heap w !! a = Some (ArrayObj xs) ->
  makeRegions makeDefaultSearch agent (ArgObject a) strict w
  = (Resolved (length (heap w)),
     {| heap := heap w ++ [MappedRegionsObj agent (IdsRef a)];
        log := log w |})
  /\ (heap w ++ [MappedRegionsObj agent (IdsRef a)]) !! a
     = Some (ArrayObj xs)
  /\ NoDup (distinct xs)
  /\ (forall x, In x (distinct xs) <-> In x xs)
  /\ forall (this : loc) (w2 : World),
       heap w2 !! this = Some (MappedRegionsObj agent (IdsRef a)) ->
       heap w2 !! a = Some (ArrayObj xs) ->
       arrayIDs (IdsRef a) w2 = (Resolved (distinct xs), w2)
       /\ snd (MappedRegions_details this w2)
          = {| heap := heap w2;
               log := log w2 ++ map region_request (distinct xs) |}
       /\ forall getNames,
            MappedRegions_names getNames this w2
            = await (getNames agent NameCategory.CONSTELLATION (distinct xs))
                w2
            /\ heap (snd (MappedRegions_names getNames this w2)) = heap w2.
Proof.
  intros Ha. split; [reflexivity|]. split.
  { rewrite lookup_app_l; [exact Ha | now apply lookup_lt_Some in Ha]. }
  destruct (distinct_spec xs) as [Hnd Hin].
  split; [exact Hnd|]. split; [exact Hin|].
  intros this w2 Hthis Ha2. split; [now apply arrayIDs_array|].
  split; [now apply (MappedRegions_details_world agent a)|].
  intros getNames.
  rewrite (MappedRegions_names_run getNames agent a this xs w2 Hthis Ha2).
  split; [reflexivity|]. unfold await.
  now destruct (getNames agent NameCategory.CONSTELLATION (distinct xs)
                  (log w2)).
Qed.

Lemma Regions_array_distinct_unmodified_witness :
  makeRegions Mock.search Mock.agent (ArgObject 0%nat) None
    {| heap := [ArrayObj [10000002; 10000001; 10000002; 10000043; 10000001]];
       log := [] |}
  = (Resolved 1%nat,
     {| heap := [ArrayObj [10000002; 10000001; 10000002; 10000043; 10000001];
                 MappedRegionsObj Mock.agent (IdsRef 0%nat)];
        log := [] |})
  /\ snd (MappedRegions_details 1%nat
            {| heap := [ArrayObj [10000002; 10000001; 10000002; 10000043;
                                  10000001];
                        MappedRegionsObj Mock.agent (IdsRef 0%nat)];
               log := [] |})
     = {| heap := [ArrayObj [10000002; 10000001; 10000002; 10000043;
                             10000001];
                   MappedRegionsObj Mock.agent (IdsRef 0%nat)];
          log := [region_request 10000002; region_request 10000001;
                  region_request 10000043] |}.
Proof.
  pose proof (Regions_array_distinct_unmodified Mock.search Mock.agent 0%nat
                [10000002; 10000001; 10000002; 10000043; 10000001] None
                {| heap := [ArrayObj [10000002; 10000001; 10000002; 10000043;
                                      10000001]];
                   log := [] |} eq_refl)
    as (Hmake & _ & _ & _ & Hops).
  split; [exact Hmake|].
  apply (proj1 (proj2 (Hops 1%nat
                         {| heap := [ArrayObj [10000002; 10000001; 10000002;
                                               10000043; 10000001];
                                     MappedRegionsObj Mock.agent
                                       (IdsRef 0%nat)];
                            log := [] |} eq_refl eq_refl))).
Defined.

(** ** The functor of [makeRegions] *)

Lemma ids_of_all_regions (agent : ESIAgent) (fuel : nat) (l : Log) :
  ids fuel (makeArrayStreamer (request agent get_universe_regions VUndefined))
    (fun id => id) l
  = (match agent l (get_universe_regions, VUndefined) with
     | Resolved (VArr elems) => Resolved elems
     | Resolved _ => Rejected (TypeError "not iterable")
     | Rejected e => Rejected e
     | Pending => Pending
     end, l ++ [(get_universe_regions, VUndefined)]).
Proof.
  unfold ids, stream, then_, bind, request, settle.
  destruct (agent l (get_universe_regions, VUndefined)) as [v|e|];
    [|reflexivity..].
  destruct v; cbn [array_elems]; try reflexivity.
  now rewrite map_id.
Qed.

(** C1: the functor dispatches on the shape of its argument.  Without an
    argument it allocates an [IteratedRegions] whose ids are streamed from the
    one answer to [get_universe_regions]; with a number, a [Region] with that
    [id_] (and nothing cached), whose [details] asks for exactly this id; with
    an array or a set, a [MappedRegions] holding the reference to it; with a
    string, a [MappedRegions] whose ids come from the region search called
    with the query and the strict flag ([false] when it is left out).  No
    request is issued by the functor itself. *)
Theorem makeRegions_dispatch
  (makeDefaultSearch : ESIAgent -> SearchCategory.t -> Search)
  (agent : ESIAgent) (strict : option bool) (w : World) :
  makeRegions makeDefaultSearch agent ArgUndefined strict w
  = (Resolved (length (heap w)),
     {| heap := heap w
                ++ [IteratedRegionsObj agent
                      (makeArrayStreamer
                         (request agent get_universe_regions VUndefined))
                      (fun id => id)];
        log := log w |})
  /\ (forall (fuel : nat) (l : Log),
        ids fuel
          (makeArrayStreamer (request agent get_universe_regions VUndefined))
          (fun id => id) l
        = (match agent l (get_universe_regions, VUndefined) with
           | Resolved (VArr elems) => Resolved elems
           | Resolved _ => Rejected (TypeError "not iterable")
           | Rejected e => Rejected e
           | Pending => Pending
           end, l ++ [(get_universe_regions, VUndefined)]))
  /\ (forall id : Z,
        makeRegions makeDefaultSearch agent (ArgNumber id) strict w
        = (Resolved (length (heap w)),
           {| heap := heap w ++ [RegionObj agent id None None];
              log := log w |})
        /\ (this <~ makeRegions makeDefaultSearch agent (ArgNumber id) strict ;;
            Region_details this) w
           = (agent (log w) (region_request id),
              {| heap := heap w ++ [RegionObj agent id None None];
                 log := log w ++ [region_request id] |}))
  /\ (forall ids : loc,
        makeRegions makeDefaultSearch agent (ArgObject ids) strict w
        = (Resolved (length (heap w)),
           {| heap := heap w ++ [MappedRegionsObj agent (IdsRef ids)];
              log := log w |}))
  /\ (forall query : string,
        makeRegions makeDefaultSearch agent (ArgString query) strict w
        = (Resolved (length (heap w)),
           {| heap := heap w
                      ++ [MappedRegionsObj agent
                            (IdsProvider
                               (makeDefaultSearch agent SearchCategory.REGION
                                  query (default false strict)))];
              log := log w |})).
Proof.
  split; [reflexivity|]. split; [intros; apply ids_of_all_regions|].
  split; [|split; reflexivity].
  intros id. split; [reflexivity|].
  unfold bind at 1. cbn [makeRegions new].
  rewrite (Region_details_run agent id None None).
  - reflexivity.
  - cbn [heap]. now rewrite lookup_app_r, Nat.sub_diag by lia.
Qed.

(** C3 (the code departs from it): on the array [[10000002]] of region ids,
    [MappedRegions.names] asks the name lookup for the CONSTELLATION category,
    where the sibling [IteratedRegions.names] asks for REGION. *)
Theorem MappedRegions_names_asks_constellation :
  (this <~ makeRegions Mock.search Mock.agent (ArgObject 0%nat) None ;;
   MappedRegions_names Mock.getNames this)
    {| heap := [ArrayObj [10000002]]; log := [] |}
  = (Resolved [(10000002, "constellation")],
     {| heap := [ArrayObj [10000002];
                 MappedRegionsObj Mock.agent (IdsRef 0%nat)];
        log := [] |})
  /\ fst ((this <~ makeRegions Mock.search Mock.agent ArgUndefined None ;;
           IteratedRegions_names Mock.getIteratedNames 1 this)
            {| heap := []; log := [] |})
     = Resolved [(10000001, "region"); (10000002, "region")].
Proof. split; reflexivity. Qed.

(** ** One request, and what becomes of a rejection *)




Lemma stream_pages_step (agent : ESIAgent) (rq : Z -> Request)
  (maxPageSize : Z) (fuel : nat) (first : Z) (l : Log) :
  stream_pages (S fuel) (request_loader agent rq) maxPageSize first l
  = match agent l (rq first) with
    | Resolved v =>
        match array_elems v with
        | Resolved items =>
            if match items with [] => true | _ :: _ => false end
               || (Z.of_nat (length items) <? maxPageSize)%Z
            then (Resolved items, l ++ [rq first])
            else
              let (o, l') :=
                stream_pages fuel (request_loader agent rq) maxPageSize
                  (first + 1) (l ++ [rq first]) in
              (match o with
               | Resolved rest => Resolved (items ++ rest)
               | Rejected e => Rejected e
               | Pending => Pending
               end, l')
        | Rejected e => (Rejected e, l ++ [rq first])
        | Pending => (Pending, l ++ [rq first])
        end
    | Rejected e => (Rejected e, l ++ [rq first])
    | Pending => (Pending, l ++ [rq first])
    end.
Proof.
  cbn [stream_pages]. unfold bind at 1. rewrite request_loader_run.
  destruct (agent l (rq first)) as [v|e|]; [|reflexivity..].
  unfold bind at 1. cbn [settle result maxPages].
  destruct (array_elems v) as [items|e|]; [|reflexivity..].
  rewrite orb_false_r.
  destruct (_ || _); [reflexivity|].
  unfold bind.
  now destruct (stream_pages fuel _ maxPageSize (first + 1) (l ++ [rq first]))
    as [[rest|e|] l'].
Qed.



Lemma single_request_outcome (fuel : nat) (m : Method) (agent : ESIAgent)
  (this : loc) (w : World) (o : Obj) :
  heap w !! this = Some o ->
  receiver m agent o ->
  single_request m = true ->
  exists rq : Request,
    snd (invoke fuel m this w)
    = {| heap := heap w; log := log w ++ [rq] |}
    /\ forall e, agent (log w) rq = Rejected e ->
                 fst (invoke fuel m this w) = Rejected e.
Proof.
  intros Hthis Hrecv Hsingle.
  destruct m; try discriminate; destruct o; cbn [receiver] in Hrecv;
    try contradiction;
    try (destruct Hrecv as (Hagent & _ & _)); try rename Hrecv into Hagent;
    subst agent0; cbn [invoke].
  - rewrite (StationImpl_info_run _ _ _ _ Hthis).
    eexists. split; [reflexivity|]. auto.
  - rewrite (Region_details_run _ _ _ _ _ _ Hthis).
    eexists. split; [reflexivity|]. auto.
  - unfold Region_names, then_, bind.
    rewrite (Region_details_run _ _ _ _ _ _ Hthis).
    eexists. split.
    + now destruct (agent (log w) (region_request id_)).
    + intros e ->. reflexivity.
  - unfold RegionMarket_buyOrdersFor, market_orders_for.
    rewrite (bind_deref _ _ _ _ Hthis), await_request.
    eexists. split; [reflexivity|]. auto.
  - unfold RegionMarket_sellOrdersFor, market_orders_for.
    rewrite (bind_deref _ _ _ _ Hthis), await_request.
    eexists. split; [reflexivity|]. auto.
  - unfold RegionMarket_ordersFor, market_orders_for.
    rewrite (bind_deref _ _ _ _ Hthis), await_request.
    eexists. split; [reflexivity|]. auto.
  - unfold RegionMarket_history.
    rewrite (bind_deref _ _ _ _ Hthis), await_request.
    eexists. split; [reflexivity|]. auto.
Qed.


Lemma invoke_orders_eq (fuel : nat) (agent : ESIAgent) (id : Z)
  (orders_ types_ : option Streamer) (this : loc) (w : World) :
  heap w !! this = Some (RegionMarketObj agent id orders_ types_) ->
  cached_or_unset orders_
    (makePageBasedStreamer (orders_loader agent id) 10000) ->
  invoke fuel MarketOrders this w
  = then_ (await (stream_pages fuel
                    (request_loader agent (orders_request id)) 10000 1))
      as_array
      {| heap := <[this := RegionMarketObj agent id
                             (Some (makePageBasedStreamer
                                      (orders_loader agent id) 10000))
                             types_]> (heap w);
         log := log w |}.
Proof.
  intros Hthis Hcache. cbn [invoke]. unfold RegionMarket_orders, then_, bind.
  rewrite (deref_some _ _ _ Hthis).
  destruct Hcache as [-> | ->].
  - reflexivity.
  - rewrite list_insert_id by exact Hthis. now rewrite world_eta.
Qed.

Lemma invoke_types_eq (fuel : nat) (agent : ESIAgent) (id : Z)
  (orders_ types_ : option Streamer) (this : loc) (w : World) :
  heap w !! this = Some (RegionMarketObj agent id orders_ types_) ->
  cached_or_unset types_
    (makePageBasedStreamer (types_loader agent id) 1000) ->
  invoke fuel MarketTypes this w
  = then_ (await (stream_pages fuel
                    (request_loader agent (types_request id)) 1000 1))
      as_array
      {| heap := <[this := RegionMarketObj agent id orders_
                             (Some (makePageBasedStreamer
                                      (types_loader agent id) 1000))]>
                   (heap w);
         log := log w |}.
Proof.
  intros Hthis Hcache. cbn [invoke]. unfold RegionMarket_types, then_, bind.
  rewrite (deref_some _ _ _ Hthis).
  destruct Hcache as [-> | ->].
  - reflexivity.
  - rewrite list_insert_id by exact Hthis. now rewrite world_eta.
Qed.


Lemma StationImpl_id_run (agent : ESIAgent) (id : Z) (this : loc)
  (w : World) :
  heap w !! this = Some (StationObj agent id) ->
  StationImpl_id this w = (Resolved (VNum id), w).
Proof.
  intros H. unfold StationImpl_id. now rewrite (bind_deref _ _ _ _ H).
Qed.

(** The claim of C4 as it stands fails: [Station.id] settles without any
    request, and [RegionMarket.orders] asks once per page (here the full
    page 1, then the short page 2). *)
Lemma single_shot_counterexample :
  ~ (forall (fuel : nat) (m : Method) (agent : ESIAgent) (this : loc)
       (w : World) (o : Obj),
        heap w !! this = Some o ->
        receiver m agent o ->
        exists rq : Request,
          log (snd (invoke fuel m this w)) = log w ++ [rq])
  /\ invoke 5 StationId 0%nat
       {| heap := [StationObj Mock.agent 60003760]; log := [] |}
     = (Resolved (VNum 60003760),
        {| heap := [StationObj Mock.agent 60003760]; log := [] |})
  /\ log (snd (invoke 5 MarketOrders 0%nat
                 {| heap := [RegionMarketObj (Mock.paged_agent 1) 10000002
                               None None];
                    log := [] |}))
     = [orders_request 10000002 1; orders_request 10000002 2].
Proof.
  split; [|split; [reflexivity | vm_compute; reflexivity]].
  intros H.
  destruct (H 5%nat StationId Mock.agent 0%nat
              {| heap := [StationObj Mock.agent 60003760]; log := [] |}
              (StationObj Mock.agent 60003760) eq_refl eq_refl) as [rq Hrq].
  cbn in Hrq. discriminate.
Qed.

(** C4, amended: the methods whose body is one [agent.request] --
    [Station.info], [Region.details], [Region.names], and [buyOrdersFor],
    [sellOrdersFor], [ordersFor], [history] of the region market -- issue
    exactly one request per call and leave the heap alone; [Station.id]
    issues none; [RegionMarket.orders] issues one request per page it
    fetches. *)
Theorem single_request_methods (fuel : nat) (m : Method) (agent : ESIAgent)
  (this : loc) (w : World) (o : Obj) :
  heap w !! this = Some o ->
  receiver m agent o ->
  (single_request m = true ->
   exists rq : Request,
     snd (invoke fuel m this w)
     = {| heap := heap w; log := log w ++ [rq] |})
  /\ (m = StationId -> snd (invoke fuel m this w) = w)
  /\ (m = MarketOrders ->
      forall (id : Z) (orders_ types_ : option Streamer)
             (pages : list (list Value)),
        o = RegionMarketObj agent id orders_ types_ ->
        serves agent (orders_request id) 1 (log w) pages ->
        ends_short 10000 pages = true ->
        (length pages <= fuel)%nat ->
        log (snd (invoke fuel m this w))
        = log w ++ page_requests (orders_request id) 1 (length pages)).
Proof.
  intros Hthis Hrecv. split; [|split].
  - intros Hsingle.
    destruct (single_request_outcome fuel m agent this w o Hthis Hrecv
                Hsingle) as (rq & Hrun & _).
    now exists rq.
  - intros ->. destruct o; cbn [receiver] in Hrecv; try contradiction.
    cbn [invoke]. now rewrite (StationImpl_id_run _ _ _ _ Hthis).
  - intros -> id orders_ types_ pages -> Hserve Hend Hfuel.
    destruct Hrecv as (_ & Horders & _).
    cbn [invoke]. unfold then_, bind.
    now rewrite (RegionMarket_orders_run agent id orders_ types_ this w pages
                   fuel Hthis Horders Hserve Hend Hfuel).
Qed.

Lemma single_request_methods_witness :
  exists rq : Request,
    snd (invoke 1 RegionNames 0%nat
           {| heap := [RegionObj Mock.agent 10000002 None None];
              log := [] |})
    = {| heap := [RegionObj Mock.agent 10000002 None None];
         log := [] ++ [rq] |}.
Proof.
  apply (proj1 (single_request_methods 1 RegionNames Mock.agent 0%nat
                  {| heap := [RegionObj Mock.agent 10000002 None None];
                     log := [] |}
                  (RegionObj Mock.agent 10000002 None None)
                  eq_refl eq_refl) eq_refl).
Defined.

Lemma then_await_world {A B} (p : Promise A) (cb : A -> Outcome B)
  (h : list Obj) (l : Log) :
  snd (then_ (await p) cb {| heap := h; log := l |})
  = {| heap := h; log := snd (p l) |}.
Proof.
  unfold then_, bind, await, settle. cbn [heap log].
  now destruct (p l) as [[a|e|] l'].
Qed.

Lemma stream_pages_prefix (agent : ESIAgent) (rq : Z -> Request)
  (maxPageSize : Z) (fuel : nat) :
  forall (first : Z) (l : Log),
    exists k : nat,
      (k <= fuel)%nat
      /\ ((0 < fuel)%nat -> (1 <= k)%nat)
      /\ snd (stream_pages fuel (request_loader agent rq) maxPageSize first l)
         = l ++ page_requests rq first k.
Proof.
  induction fuel as [|fuel IH]; intros first l.
  - exists 0%nat. cbn. rewrite app_nil_r. repeat split; lia.
  - rewrite stream_pages_step.
    assert (Hone : exists k : nat,
               (k <= S fuel)%nat /\ ((0 < S fuel)%nat -> (1 <= k)%nat)
               /\ l ++ [rq first] = l ++ page_requests rq first k).
    { exists 1%nat. repeat split; lia. }
    destruct (agent l (rq first)) as [v|e|]; [|exact Hone..].
    destruct (array_elems v) as [items|e|]; [|exact Hone..].
    destruct (_ || _); [exact Hone|].
    destruct (IH (first + 1) (l ++ [rq first])) as (k & Hk & _ & Hlog).
    exists (S k).
    destruct (stream_pages fuel _ maxPageSize (first + 1) (l ++ [rq first]))
      as [o l'].
    cbn [snd page_requests] in *. subst l'.
    repeat split; try lia. now rewrite <- app_assoc.
Qed.





(** A rejection on a later page: page 1 is served, page 2 times out; the
    stream rejects with the timeout and page 2 is asked for once. *)
Example orders_rejected_on_page_2 :
  invoke 5 MarketOrders 0%nat
    {| heap := [RegionMarketObj (Mock.flaky Mock.timeout) 10000002 None None];
       log := [] |}
  = (Rejected Mock.timeout,
     {| heap := [RegionMarketObj (Mock.flaky Mock.timeout) 10000002
                   (Some (makePageBasedStreamer
                            (orders_loader (Mock.flaky Mock.timeout)
                               10000002) 10000))
                   None];
        log := [orders_request 10000002 1; orders_request 10000002 2] |}).
Proof. vm_compute. reflexivity. Qed.





(** * Further properties of the wrappers *)

(** ** The region market *)

(** X1: the typed order listings and the price history of a region market
    each issue one request, on the market's own region: [buyOrdersFor],
    [sellOrdersFor] and [ordersFor] ask [get_markets_region_id_orders] with
    the type and the order type [buy], [sell] and [all];  [history] asks
    [get_markets_region_id_history] with the type.  The promise is the
    agent's, and neither the heap nor the cached streamers change. *)
Theorem RegionMarket_typed_requests (agent : ESIAgent) (id type : Z)
  (orders_ types_ : option Streamer) (this : loc) (w : World) :
  heap w !! this = Some (RegionMarketObj agent id orders_ types_) ->
  RegionMarket_buyOrdersFor this type w
  = (agent (log w) (typed_orders_request "buy" id type),
     {| heap := heap w;
        log := log w ++ [typed_orders_request "buy" id type] |})
  /\ RegionMarket_sellOrdersFor this type w
     = (agent (log w) (typed_orders_request "sell" id type),
        {| heap := heap w;
           log := log w ++ [typed_orders_request "sell" id type] |})
  /\ RegionMarket_ordersFor this type w
     = (agent (log w) (typed_orders_request "all" id type),
        {| heap := heap w;
           log := log w ++ [typed_orders_request "all" id type] |})
  /\ RegionMarket_history this type w
     = (agent (log w) (history_request id type),
        {| heap := heap w; log := log w ++ [history_request id type] |}).
Proof.
  intros Hthis.
  unfold RegionMarket_buyOrdersFor, RegionMarket_sellOrdersFor,
    RegionMarket_ordersFor, market_orders_for, RegionMarket_history.
  rewrite !(bind_deref _ _ _ _ Hthis). repeat split.
Qed.

Lemma RegionMarket_typed_requests_witness :
  RegionMarket_history 0%nat 34
    {| heap := [RegionMarketObj Mock.agent 10000002 None None]; log := [] |}
  = (Resolved (VArr []),
     {| heap := [RegionMarketObj Mock.agent 10000002 None None];
        log := [history_request 10000002 34] |}).
Proof.
  apply (proj2 (proj2 (proj2
    (RegionMarket_typed_requests Mock.agent 10000002 34 None None 0%nat
       {| heap := [RegionMarketObj Mock.agent 10000002 None None];
          log := [] |} eq_refl)))).
Defined.

Lemma RegionMarket_types_run (agent : ESIAgent) (id : Z)
  (orders_ types_ : option Streamer) (this : loc) (w : World)
  (pages : list (list Value)) (fuel : nat) :
  heap w !! this = Some (RegionMarketObj agent id orders_ types_) ->
  cached_or_unset types_
    (makePageBasedStreamer (types_loader agent id) 1000) ->
  serves agent (types_request id) 1 (log w) pages ->
  ends_short 1000 pages = true ->
  (length pages <= fuel)%nat ->
  RegionMarket_types fuel this w
  = (Resolved (concat pages),
     {| heap := <[this := RegionMarketObj agent id orders_
                            (Some (makePageBasedStreamer
                                     (types_loader agent id) 1000))]>
                  (heap w);
        log := log w ++ page_requests (types_request id) 1 (length pages) |}).
Proof.
  intros Hthis Hcache Hserve Hend Hfuel.
  unfold RegionMarket_types. rewrite (bind_deref _ _ _ _ Hthis).
  pose proof (stream_pages_concat agent (types_request id) 1000 pages
                fuel 1 (log w) Hserve Hend Hfuel) as Hrun.
  change (request_loader agent (types_request id))
    with (types_loader agent id) in Hrun.
  destruct Hcache as [-> | ->].
  - unfold bind, assign, ret, await, stream. cbn [heap log].
    now rewrite Hrun.
  - unfold bind, ret, await, stream. rewrite Hrun.
    now rewrite list_insert_id by exact Hthis.
Qed.

(** X2: [RegionMarket.types], read to its end, pages through
    [get_markets_region_id_types] of its region with pages of 1000: when the
    agent serves pages 1 to n, the n-th being the first with fewer than 1000
    ids, the result is these pages appended in order, the requests are those
    for pages 1 to n, and the streamer is stored in [types_] while [orders_]
    stays as it was. *)
Theorem RegionMarket_types_concatenates_pages (agent : ESIAgent) (id : Z)
  (orders_ types_ : option Streamer) (this : loc) (w : World)
  (pages : list (list Value)) (fuel : nat) :
  heap w !! this = Some (RegionMarketObj agent id orders_ types_) ->
  cached_or_unset types_
    (makePageBasedStreamer (types_loader agent id) 1000) ->
  serves agent (types_request id) 1 (log w) pages ->
  ends_short 1000 pages = true ->
  (length pages <= fuel)%nat ->
  RegionMarket_types fuel this w
  = (Resolved (concat pages),
     {| heap := <[this := RegionMarketObj agent id orders_
                            (Some (makePageBasedStreamer
                                     (types_loader agent id) 1000))]>
                  (heap w);
        log := log w ++ page_requests (types_request id) 1 (length pages) |}).
Proof. apply RegionMarket_types_run. Qed.

Lemma RegionMarket_types_concatenates_pages_witness :
  RegionMarket_types 3 0%nat
    {| heap := [RegionMarketObj Mock.types_agent 10000002 None None];
       log := [] |}
  = (Resolved (Mock.full_types_page ++ [VNum 35; VNum 36; VNum 37]),
     {| heap := [RegionMarketObj Mock.types_agent 10000002 None
                   (Some (makePageBasedStreamer
                            (types_loader Mock.types_agent 10000002) 1000))];
        log := [types_request 10000002 1; types_request 10000002 2] |}).
Proof.
  pose proof (RegionMarket_types_concatenates_pages Mock.types_agent 10000002
    None None 0%nat
    {| heap := [RegionMarketObj Mock.types_agent 10000002 None None];
       log := [] |}
    [Mock.full_types_page; [VNum 35; VNum 36; VNum 37]]
    3%nat eq_refl (or_introl eq_refl)
    (conj eq_refl (conj eq_refl I))
    ltac:(vm_compute; reflexivity)
    ltac:(cbn; lia)) as H.
  cbn [concat length page_requests] in H.
  rewrite app_nil_r in H. exact H.
Defined.

(** X3: only the streamer is cached, not what it streamed.  Two calls of
    [orders] on a fresh market fetch the pages twice, each time from page 1:
    the second call gives what the agent serves then, issues its own requests
    after those of the first, and finds the heap as the first call left it. *)
Theorem RegionMarket_orders_twice (agent : ESIAgent) (id : Z)
  (types_ : option Streamer) (this : loc) (w : World)
  (pages1 pages2 : list (list Value)) (fuel : nat) :
  heap w !! this = Some (RegionMarketObj agent id None types_) ->
  serves agent (orders_request id) 1 (log w) pages1 ->
  ends_short 10000 pages1 = true ->
  serves agent (orders_request id) 1
    (log w ++ page_requests (orders_request id) 1 (length pages1)) pages2 ->
  ends_short 10000 pages2 = true ->
  (length pages1 <= fuel)%nat ->
  (length pages2 <= fuel)%nat ->
  (first <~ RegionMarket_orders fuel this ;;
   second <~ RegionMarket_orders fuel this ;;
   ret (first, second)) w
  = (Resolved (concat pages1, concat pages2),
     {| heap := <[this := RegionMarketObj agent id
                            (Some (makePageBasedStreamer
                                     (orders_loader agent id) 10000))
                            types_]> (heap w);
        log := (log w ++ page_requests (orders_request id) 1 (length pages1))
               ++ page_requests (orders_request id) 1 (length pages2) |}).
Proof.
  intros Hthis Hserve1 Hend1 Hserve2 Hend2 Hfuel1 Hfuel2.
  unfold bind at 1.
  rewrite (RegionMarket_orders_run agent id None types_ this w pages1 fuel
             Hthis (or_introl eq_refl) Hserve1 Hend1 Hfuel1).
  unfold bind at 1.
  rewrite (RegionMarket_orders_run agent id
             (Some (makePageBasedStreamer (orders_loader agent id) 10000))
             types_ this _ pages2 fuel).
  - cbn [ret heap log]. now rewrite list_insert_insert_eq.
  - cbn [heap]. apply list_lookup_insert_eq. now apply lookup_lt_Some in Hthis.
  - now right.
  - exact Hserve2.
  - exact Hend2.
  - exact Hfuel2.
Qed.

Lemma RegionMarket_orders_twice_witness :
  log (snd ((first <~ RegionMarket_orders 3 0%nat ;;
             second <~ RegionMarket_orders 3 0%nat ;;
             ret (first, second))
              {| heap := [RegionMarketObj (Mock.paged_agent 1) 10000002
                            None None];
                 log := [] |}))
  = [orders_request 10000002 1; orders_request 10000002 2;
     orders_request 10000002 1; orders_request 10000002 2].
Proof.
  rewrite (RegionMarket_orders_twice (Mock.paged_agent 1) 10000002 None
             0%nat
             {| heap := [RegionMarketObj (Mock.paged_agent 1) 10000002
                           None None];
                log := [] |}
             [Mock.full_page 1; [Mock.order 0]]
             [Mock.full_page 1; [Mock.order 0]] 3%nat eq_refl
             (conj eq_refl (conj eq_refl I))
             ltac:(vm_compute; reflexivity)
             (conj eq_refl (conj eq_refl I))
             ltac:(vm_compute; reflexivity)
             ltac:(cbn; lia) ltac:(cbn; lia)).
  reflexivity.
Defined.

(** X4: whatever the agent answers, the page iterators of a region market
    ask for nothing but consecutive pages of their own route and region,
    starting at page 1: the requests of one [orders] call are those for pages
    1 to k for some k, and so for [types]; at least page 1 is asked for. *)
Theorem RegionMarket_pages_in_order (fuel : nat) (agent : ESIAgent) (id : Z)
  (orders_ types_ : option Streamer) (this : loc) (w : World) :
  heap w !! this = Some (RegionMarketObj agent id orders_ types_) ->
  cached_or_unset orders_
    (makePageBasedStreamer (orders_loader agent id) 10000) ->
  cached_or_unset types_
    (makePageBasedStreamer (types_loader agent id) 1000) ->
  (exists k : nat,
     (k <= fuel)%nat /\ ((0 < fuel)%nat -> (1 <= k)%nat)
     /\ log (snd (invoke fuel MarketOrders this w))
        = log w ++ page_requests (orders_request id) 1 k)
  /\ (exists k : nat,
        (k <= fuel)%nat /\ ((0 < fuel)%nat -> (1 <= k)%nat)
        /\ log (snd (invoke fuel MarketTypes this w))
           = log w ++ page_requests (types_request id) 1 k).
Proof.
  intros Hthis Horders Htypes. split.
  - rewrite (invoke_orders_eq fuel agent id orders_ types_ this w Hthis
               Horders), then_await_world. cbn [log].
    apply stream_pages_prefix.
  - rewrite (invoke_types_eq fuel agent id orders_ types_ this w Hthis
               Htypes), then_await_world. cbn [log].
    apply stream_pages_prefix.
Qed.

Lemma RegionMarket_pages_in_order_witness :
  exists k : nat,
    (k <= 5)%nat /\ ((0 < 5)%nat -> (1 <= k)%nat)
    /\ log (snd (invoke 5 MarketOrders 0%nat
                   {| heap := [RegionMarketObj (Mock.flaky Mock.timeout)
                                 10000002 None None];
                      log := [] |}))
       = [] ++ page_requests (orders_request 10000002) 1 k.
Proof.
  apply (proj1 (RegionMarket_pages_in_order 5 (Mock.flaky Mock.timeout)
                  10000002 None None 0%nat
                  {| heap := [RegionMarketObj (Mock.flaky Mock.timeout)
                                10000002 None None];
                     log := [] |}
                  eq_refl (or_introl eq_refl) (or_introl eq_refl))).
Defined.

(** ** What a method call leaves behind *)

Lemma receiver_cached_orders (m : Method) (agent : ESIAgent) (id : Z)
  (orders_ types_ : option Streamer) :
  receiver m agent (RegionMarketObj agent id orders_ types_) ->
  receiver m agent
    (RegionMarketObj agent id
       (Some (makePageBasedStreamer (orders_loader agent id) 10000)) types_).
Proof.
  destruct m; cbn [receiver]; try contradiction;
    intros (E & _ & Ht); (split; [exact E | split; [now right | exact Ht]]).
Qed.

Lemma receiver_cached_types (m : Method) (agent : ESIAgent) (id : Z)
  (orders_ types_ : option Streamer) :
  receiver m agent (RegionMarketObj agent id orders_ types_) ->
  receiver m agent
    (RegionMarketObj agent id orders_
       (Some (makePageBasedStreamer (types_loader agent id) 1000))).
Proof.
  destruct m; cbn [receiver]; try contradiction;
    intros (E & Ho & _); (split; [exact E | split; [exact Ho | now right]]).
Qed.

(** X5: a method call writes to no heap object but its receiver: every
    other wrapper, id array or set is afterwards what it was before.  The
    receiver is afterwards still an instance on which every method that could
    be called before can be called again (the cached streamers are the ones
    the methods build).  Only [orders] and [types] write at all, to store
    their streamer in the receiver; every other method leaves the whole heap
    as it was. *)
Theorem invoke_frame (fuel : nat) (m : Method) (agent : ESIAgent)
  (this : loc) (w : World) (o : Obj) :
  heap w !! this = Some o ->
  receiver m agent o ->
  (forall l : loc,
     l <> this -> heap (snd (invoke fuel m this w)) !! l = heap w !! l)
  /\ (exists o' : Obj,
        heap (snd (invoke fuel m this w)) !! this = Some o'
        /\ forall m' : Method, receiver m' agent o -> receiver m' agent o')
  /\ (m <> MarketOrders -> m <> MarketTypes ->
      heap (snd (invoke fuel m this w)) = heap w).
Proof.
  intros Hthis Hrecv.
  assert (Hsame : heap (snd (invoke fuel m this w)) = heap w ->
            (forall l : loc,
               l <> this ->
               heap (snd (invoke fuel m this w)) !! l = heap w !! l)
            /\ (exists o' : Obj,
                  heap (snd (invoke fuel m this w)) !! this = Some o'
                  /\ forall m' : Method,
                       receiver m' agent o -> receiver m' agent o')
            /\ (m <> MarketOrders -> m <> MarketTypes ->
                heap (snd (invoke fuel m this w)) = heap w)).
  { intros ->. repeat split; auto. exists o. auto. }
  destruct (single_request m) eqn:Hsingle.
  - apply Hsame.
    destruct (single_request_outcome fuel m agent this w o Hthis Hrecv
                Hsingle) as (rq & -> & _).
    reflexivity.
  - assert (Hm : m = StationId \/ m = MarketOrders \/ m = MarketTypes)
      by (destruct m; try discriminate; auto).
    destruct Hm as [-> | [-> | ->]].
    + apply Hsame.
      destruct o; cbn [receiver] in Hrecv; try contradiction.
      cbn [invoke]. now rewrite (StationImpl_id_run _ _ _ _ Hthis).
    + destruct o; cbn [receiver] in Hrecv; try contradiction.
      pose proof Hrecv as (-> & Horders & Htypes).
      rewrite (invoke_orders_eq fuel agent id orders_ types_ this w Hthis
                 Horders), then_await_world. cbn [heap].
      split; [intros l Hl; now apply list_lookup_insert_ne|].
      split; [|intros H; now contradiction H].
      eexists. split.
      * apply list_lookup_insert_eq. now apply lookup_lt_Some in Hthis.
      * intros m'. apply receiver_cached_orders.
    + destruct o; cbn [receiver] in Hrecv; try contradiction.
      pose proof Hrecv as (-> & Horders & Htypes).
      rewrite (invoke_types_eq fuel agent id orders_ types_ this w Hthis
                 Htypes), then_await_world. cbn [heap].
      split; [intros l Hl; now apply list_lookup_insert_ne|].
      split; [|intros _ H; now contradiction H].
      eexists. split.
      * apply list_lookup_insert_eq. now apply lookup_lt_Some in Hthis.
      * intros m'. apply receiver_cached_types.
Qed.

Lemma invoke_frame_witness :
  heap (snd (invoke 3 MarketOrders 1%nat
               {| heap := [RegionObj Mock.agent 10000002 None (Some 1%nat);
                           RegionMarketObj Mock.agent 10000002 None None];
                  log := [] |})) !! 0%nat
  = Some (RegionObj Mock.agent 10000002 None (Some 1%nat)).
Proof.
  apply (proj1 (invoke_frame 3 MarketOrders Mock.agent 1%nat
    {| heap := [RegionObj Mock.agent 10000002 None (Some 1%nat);
                RegionMarketObj Mock.agent 10000002 None None];
       log := [] |}
    (RegionMarketObj Mock.agent 10000002 None None)
    eq_refl (conj eq_refl (conj (or_introl eq_refl) (or_introl eq_refl))))
    0%nat).
  discriminate.
Defined.

(** ** The calls on one Region, in any order *)

Lemma Region_names_world (agent : ESIAgent) (id : Z) (c m : option loc)
  (this : loc) (w : World) :
  heap w !! this = Some (RegionObj agent id c m) ->
  snd (Region_names this w)
  = {| heap := heap w; log := log w ++ [region_request id] |}.
Proof.
  intros H. unfold Region_names, then_, bind.
  rewrite (Region_details_run _ _ _ _ _ _ H).
  now destruct (agent (log w) (region_request id)).
Qed.

Lemma region_calls_cached (agent : ESIAgent) (id : Z) (this : loc)
  (trace : list RegionCall) :
  forall (w : World) (c0 m0 : option loc),
    heap w !! this = Some (RegionObj agent id c0 m0) ->
    exists c m : loc,
      (forall c', c0 = Some c' -> c = c')
      /\ (forall m', m0 = Some m' -> m = m')
      /\ log (snd (region_calls trace this w))
         = log w ++ repeat (region_request id)
                      (length (List.filter asks_details trace))
      /\ forall o,
           (In (Constellations, o) (fst (region_calls trace this w)) ->
            o = Resolved c)
           /\ (In (Market, o) (fst (region_calls trace this w)) ->
               o = Resolved m).
Proof.
  induction trace as [|call rest IH]; intros w c0 m0 Hthis.
  - exists (default 0%nat c0), (default 0%nat m0). cbn. rewrite app_nil_r.
    repeat split; try (intros ? ->; reflexivity); intros [].
  - destruct call as [| | a]; cbn [region_calls List.filter asks_details].
    + rewrite (Region_details_run _ _ _ _ _ _ Hthis). cbn [snd].
      destruct (IH {| heap := heap w; log := log w ++ [region_request id] |}
                  c0 m0 Hthis) as (c & m & Hc & Hm & Hlog & Hres).
      exists c, m. repeat split; auto; try apply Hres.
      rewrite Hlog. cbn [log length repeat]. now rewrite <- app_assoc.
    + rewrite (Region_names_world _ _ _ _ _ _ Hthis).
      destruct (IH {| heap := heap w; log := log w ++ [region_request id] |}
                  c0 m0 Hthis) as (c & m & Hc & Hm & Hlog & Hres).
      exists c, m. repeat split; auto; try apply Hres.
      rewrite Hlog. cbn [log length repeat]. now rewrite <- app_assoc.
    + destruct (access_step agent id this a w c0 m0 Hthis)
        as (l & w1 & c1 & m1 & Hrun & Hnext & Hlog1 & Hc1 & Hm1 & Hl).
      destruct (IH w1 c1 m1 Hnext) as (c & m & Hc & Hm & Hlog & Hres).
      rewrite Hrun.
      destruct (region_calls rest this w1) as [os w2].
      cbn [fst snd] in *.
      exists c, m. repeat split.
      * intros c' E. apply Hc, Hc1, E.
      * intros m' E. apply Hm, Hm1, E.
      * congruence.
      * intros [E | Hin]; [|now apply (Hres o)].
        inversion E; subst. f_equal. symmetry. now apply Hc.
      * intros [E | Hin]; [|now apply (Hres o)].
        inversion E; subst. f_equal. symmetry. now apply Hm.
Qed.

(** X6: the methods and the getters of a [Region] do not disturb each
    other.  In any sequence of [details], [names], [constellations] and
    [market] on one region, every [details] and every [names] issues one
    request for the details of this region and nothing else is requested,
    while each getter keeps returning one and the same reference, whatever
    the agent answers. *)
Theorem Region_calls_interleaved (agent : ESIAgent) (id : Z)
  (c0 m0 : option loc) (this : loc) (w : World) (trace : list RegionCall) :
  heap w !! this = Some (RegionObj agent id c0 m0) ->
  log (snd (region_calls trace this w))
  = log w ++ repeat (region_request id)
               (length (List.filter asks_details trace))
  /\ exists c m : loc,
       forall o,
         (In (Constellations, o) (fst (region_calls trace this w)) ->
          o = Resolved c)
         /\ (In (Market, o) (fst (region_calls trace this w)) ->
             o = Resolved m).
Proof.
  intros Hthis.
  destruct (region_calls_cached agent id this trace w c0 m0 Hthis)
    as (c & m & _ & _ & Hlog & Hres).
  split; [exact Hlog|]. now exists c, m.
Qed.

Lemma Region_calls_interleaved_witness :
  region_calls [Read Market; CallNames; Read Constellations; CallDetails;
                Read Market] 0%nat
    {| heap := [RegionObj (Mock.failing Mock.timeout) 10000002 None None];
       log := [] |}
  = ([(Market, Resolved 1%nat); (Constellations, Resolved 2%nat);
      (Market, Resolved 1%nat)],
     {| heap := [RegionObj (Mock.failing Mock.timeout) 10000002
                   (Some 2%nat) (Some 1%nat);
                 RegionMarketObj (Mock.failing Mock.timeout) 10000002
                   None None;
                 MappedConstellationsObj (Mock.failing Mock.timeout)
                   (constellations_provider (Mock.failing Mock.timeout)
                      10000002)];
        log := [region_request 10000002; region_request 10000002] |})
  /\ log (snd (region_calls [Read Market; CallNames; CallDetails] 0%nat
                 {| heap := [RegionObj (Mock.failing Mock.timeout) 10000002
                               None None];
                    log := [] |}))
     = [] ++ repeat (region_request 10000002) 2.
Proof.
  split; [reflexivity|].
  apply (proj1 (Region_calls_interleaved (Mock.failing Mock.timeout)
                  10000002 None None 0%nat
                  {| heap := [RegionObj (Mock.failing Mock.timeout) 10000002
                                None None];
                     log := [] |}
                  [Read Market; CallNames; CallDetails] eq_refl)).
Defined.

(** X7: the provider a [Region] hands to its [MappedConstellations] is
    lazy and tied to the region: building the sub-wrapper requests nothing,
    and every call of the provider issues one request for the details of
    this region and settles with the [constellations] property of the
    answer, or as the agent's request does when it does not resolve. *)
Theorem Region_constellations_provider (agent : ESIAgent) (id : Z)
  (m0 : option loc) (this : loc) (w : World) :
  heap w !! this = Some (RegionObj agent id None m0) ->
  exists provider : Promise Value,
    heap (snd (Region_constellations this w)) !! length (heap w)
    = Some (MappedConstellationsObj agent (IdsProvider provider))
    /\ log (snd (Region_constellations this w)) = log w
    /\ forall l : Log,
         provider l
         = (match agent l (region_request id) with
            | Resolved v => prop "constellations" v
            | Rejected e => Rejected e
            | Pending => Pending
            end, l ++ [region_request id]).
Proof.
  intros Hthis.
  rewrite (Region_constellations_first _ _ _ _ _ Hthis). cbn [snd heap log].
  eexists. split; [|split; [reflexivity|]].
  - rewrite list_lookup_insert_ne
      by (apply lookup_lt_Some in Hthis; lia).
    rewrite lookup_app_r, Nat.sub_diag by lia. reflexivity.
  - intros l. unfold then_, bind, getDetails, request, settle.
    fold (region_request id).
    now destruct (agent l (region_request id)).
Qed.

Lemma Region_constellations_provider_witness :
  exists provider : Promise Value,
    heap (snd (Region_constellations 0%nat
                 {| heap := [RegionObj Mock.agent 10000002 None None];
                    log := [] |})) !! 1%nat
    = Some (MappedConstellationsObj Mock.agent (IdsProvider provider))
    /\ provider []
       = (Resolved (VArr [VNum 20000017; VNum 20000018]),
          [region_request 10000002]).
Proof.
  destruct (Region_constellations_provider Mock.agent 10000002 None 0%nat
              {| heap := [RegionObj Mock.agent 10000002 None None];
                 log := [] |} eq_refl) as (provider & Hobj & _ & Hrun).
  exists provider. split; [exact Hobj|]. now rewrite Hrun.
Defined.

(** ** Wrappers built one after the other *)

Lemma new_suffix (h sfx : list Obj) (o : Obj) (l : Log) :
  new o {| heap := h ++ sfx; log := l |}
  = (Resolved (length h + length sfx)%nat,
     {| heap := h ++ (sfx ++ [o]); log := l |}).
Proof. unfold new. cbn [heap log]. now rewrite length_app, <- app_assoc. Qed.

Lemma deref_suffix (h sfx : list Obj) (i : nat) (o : Obj) (l : Log) :
  sfx !! i = Some o ->
  deref (length h + i)%nat {| heap := h ++ sfx; log := l |}
  = (Resolved o, {| heap := h ++ sfx; log := l |}).
Proof.
  intros H. apply deref_some. cbn [heap].
  rewrite lookup_app_r by lia.
  now replace (length h + i - length h)%nat with i by lia.
Qed.

Lemma assign_suffix (h sfx : list Obj) (i : nat) (o : Obj) (l : Log) :
  assign (length h + i)%nat o {| heap := h ++ sfx; log := l |}
  = (Resolved tt, {| heap := h ++ <[i := o]> sfx; log := l |}).
Proof. unfold assign. cbn [heap log]. now rewrite insert_app_r. Qed.

(** X8: the wrappers of [makeStations] are built anew on every call and carry
    their own id: two calls give two distinct wrappers (also for the same
    id), [id()] of each resolves to the id it was built with, and none of
    this issues a request. *)
Theorem Stations_wrappers_fresh
  (makeDefaultSearch : ESIAgent -> SearchCategory.t -> Search)
  (getNames : ESIAgent -> NameCategory.t -> list Z -> Promise NameMap)
  (agent : ESIAgent) (id1 id2 : Z) (w : World) :
  let stations := makeStations makeDefaultSearch getNames agent in
  (a <~ Stations_call stations id1 ;;
   b <~ Stations_call stations id2 ;;
   x <~ StationImpl_id a ;;
   y <~ StationImpl_id b ;;
   ret (a, b, x, y)) w
  = (Resolved (length (heap w), S (length (heap w)), VNum id1, VNum id2),
     {| heap := heap w ++ [StationObj agent id1; StationObj agent id2];
        log := log w |}).
Proof.
  destruct w as [h l]. cbn [makeStations Stations_call heap log].
  rewrite <- (app_nil_r h) at 1.
  unfold bind at 1. rewrite new_suffix.
  unfold bind at 1. rewrite new_suffix. cbn [app length].
  unfold StationImpl_id.
  unfold bind at 1. unfold bind at 1.
  rewrite (deref_suffix h _ 0 (StationObj agent id1)) by reflexivity.
  cbn [ret].
  unfold bind at 1. unfold bind at 1.
  rewrite (deref_suffix h _ 1 (StationObj agent id2)) by reflexivity.
  cbn [ret]. now rewrite Nat.add_0_r, Nat.add_1_r.
Qed.

(** X9: the market of a region is bound to the region.  On a region built by
    the functor for [id], [market] allocates a [RegionMarket] for the same
    agent and id, and its requests carry the region's id: here [history] for
    a type asks [get_markets_region_id_history] with [region_id] = [id]. *)
Theorem Region_market_bound_to_region
  (makeDefaultSearch : ESIAgent -> SearchCategory.t -> Search)
  (agent : ESIAgent) (id type : Z) (strict : option bool) (w : World) :
  (region <~ makeRegions makeDefaultSearch agent (ArgNumber id) strict ;;
   market <~ Region_market region ;;
   RegionMarket_history market type) w
  = (agent (log w) (history_request id type),
     {| heap := heap w
                ++ [RegionObj agent id None (Some (S (length (heap w))));
                    RegionMarketObj agent id None None];
        log := log w ++ [history_request id type] |}).
Proof.
  destruct w as [h l]. cbn [makeRegions heap log].
  rewrite <- (app_nil_r h) at 1.
  unfold bind at 1. rewrite new_suffix. cbn [app length].
  unfold Region_market.
  unfold bind at 1. unfold bind at 1.
  rewrite (deref_suffix h _ 0 (RegionObj agent id None None)) by reflexivity.
  unfold bind at 1. rewrite new_suffix. cbn [app length].
  unfold bind at 1. rewrite assign_suffix. cbn [ret insert list_insert].
  unfold RegionMarket_history. unfold bind at 1.
  rewrite (deref_suffix h _ 1 (RegionMarketObj agent id None None))
    by reflexivity.
  rewrite await_request. cbn [heap log].
  now rewrite Nat.add_1_r.
Qed.

(** X10: what a region caches is its own.  Two regions built by two calls
    of the functor, even for the same id, get two distinct markets; reading
    [market] of the first again returns the first market. *)
Theorem Region_caches_are_separate
  (makeDefaultSearch : ESIAgent -> SearchCategory.t -> Search)
  (agent : ESIAgent) (id1 id2 : Z) (strict : option bool) (w : World) :
  (r1 <~ makeRegions makeDefaultSearch agent (ArgNumber id1) strict ;;
   r2 <~ makeRegions makeDefaultSearch agent (ArgNumber id2) strict ;;
   m1 <~ Region_market r1 ;;
   m2 <~ Region_market r2 ;;
   again <~ Region_market r1 ;;
   ret (r1, r2, m1, m2, again)) w
  = (Resolved (length (heap w), (length (heap w) + 1)%nat,
               (length (heap w) + 2)%nat, (length (heap w) + 3)%nat,
               (length (heap w) + 2)%nat),
     {| heap := heap w
                ++ [RegionObj agent id1 None
                      (Some (length (heap w) + 2)%nat);
                    RegionObj agent id2 None
                      (Some (length (heap w) + 3)%nat);
                    RegionMarketObj agent id1 None None;
                    RegionMarketObj agent id2 None None];
        log := log w |}).
Proof.
  destruct w as [h l]. cbn [makeRegions heap log].
  rewrite <- (app_nil_r h) at 1.
  unfold bind at 1. rewrite new_suffix.
  unfold bind at 1. rewrite new_suffix. cbn [app length].
  unfold Region_market at 1.
  unfold bind at 1. unfold bind at 1.
  rewrite (deref_suffix h _ 0 (RegionObj agent id1 None None)) by reflexivity.
  unfold bind at 1. rewrite new_suffix. cbn [app length].
  unfold bind at 1. rewrite assign_suffix. cbn [ret insert list_insert].
  unfold Region_market at 1.
  unfold bind at 1. unfold bind at 1.
  rewrite (deref_suffix h _ 1 (RegionObj agent id2 None None)) by reflexivity.
  unfold bind at 1. rewrite new_suffix. cbn [app length].
  unfold bind at 1. rewrite assign_suffix. cbn [ret insert list_insert].
  unfold Region_market at 1.
  unfold bind at 1. unfold bind at 1.
  rewrite (deref_suffix h _ 0
             (RegionObj agent id1 None (Some (length h + 2)%nat)))
    by reflexivity.
  cbn [ret]. now rewrite Nat.add_0_r.
Qed.
